(** * Vineyard sensor API (server.js): a shallow embedding and its properties

    The development follows server.js.  The file holds three successive
    revisions of the server; the embedding takes

    - the flat (webhook) normaliser [parseEcowittData] and the
      [POST /api/ecowitt] handler from the revision that has them
      (lines 565-610 and 747-787),
    - the cloud normaliser [parseEcowittCloudData], the poller's ingestion
      step, [calculateStats] and the read endpoints from the last revision
      (lines 1053-1438),
    - the cloud normaliser and the poller of the revision before it
      (lines 454-550), in the module [V11].

    Conventions of the model.

    - A JavaScript number is a [num]: a rational, or NaN, or one of the two
      infinities.  [+], [-], [*] and [/] of [num] are the exact operations;
      [binary64] rounds a rational to the nearest binary64 number the way
      IEEE 754 does, and the numeric parsers and the arithmetic of the
      handlers round every result with it.  The one exception is the
      comparator [a - b] of a sort, whose result is only tested for its
      sign: between two binary64 numbers rounding does not change the sign
      of a difference.  The sign of zero is not represented.
    - A JavaScript value is a [jsval]; objects are finite maps from property
      names to values, as JSON.parse builds them: every property is an own
      data property and none holds a function.  Strings are byte strings
      and only ASCII white space is recognised by the numeric parsers.
    - A call that throws is a result [None]; the handlers catch it where
      the code has a [try].
    - The clock is an argument: a handler reads [Date.now()] as [now], in
      milliseconds, and an ISO timestamp is kept as that instant.
    - The two module-level variables [sensorData] and [lastRawData] form the
      [state] that every handler receives and returns.
    - [Array.prototype.sort] is the sort of V8, the engine of Node.js, as
      far as arrays of fewer than 64 elements go. *)

From Stdlib Require Import QArith Qcanon Qround Qabs ZArith Lia Lqa Ascii.
From Stdlib Require Import Sorted Permutation.
From stdpp Require Import gmap strings list sorting.

Local Open Scope Z_scope.

(** ** Numbers *)

Module Num.

Inductive num : Type :=
| NaN
| PInf
| NInf
| Fin (q : Q).

Definition ofZ (z : Z) : num := Fin (inject_Z z).

Definition isNaN (a : num) : bool :=
  match a with NaN => true | _ => false end.

Definition isFinite (a : num) : bool :=
  match a with Fin _ => true | _ => false end.

(** Sign of a number as an integer in {-1, 0, 1}; NaN has none. *)
Definition sgn (a : num) : option Z :=
  match a with
  | NaN => None
  | PInf => Some 1
  | NInf => Some (-1)
  | Fin q => Some (Z.sgn (Qnum q))
  end.

Definition infOfSign (s : Z) : num :=
  match s with
  | Z0 => NaN
  | Zpos _ => PInf
  | Zneg _ => NInf
  end.

Definition opp (a : num) : num :=
  match a with
  | NaN => NaN
  | PInf => NInf
  | NInf => PInf
  | Fin q => Fin (Qred (- q))
  end.

Definition add (a b : num) : num :=
  match a, b with
  | NaN, _ | _, NaN => NaN
  | PInf, NInf | NInf, PInf => NaN
  | PInf, _ | _, PInf => PInf
  | NInf, _ | _, NInf => NInf
  | Fin x, Fin y => Fin (Qred (x + y))
  end.

Definition sub (a b : num) : num := add a (opp b).

Definition mul (a b : num) : num :=
  match a, b with
  | NaN, _ | _, NaN => NaN
  | Fin x, Fin y => Fin (Qred (x * y))
  | _, _ =>
      match sgn a, sgn b with
      | Some s, Some t => infOfSign (s * t)
      | _, _ => NaN
      end
  end.

(** Division.  A zero divisor is taken as +0. *)
Definition div (a b : num) : num :=
  match a, b with
  | NaN, _ | _, NaN => NaN
  | Fin x, Fin y =>
      if Qeq_bool y 0 then infOfSign (Z.sgn (Qnum x)) else Fin (Qred (x / y))
  | Fin _, _ => Fin 0
  | _, Fin y =>
      match sgn a with
      | Some s => infOfSign (s * (if Qeq_bool y 0 then 1 else Z.sgn (Qnum y)))
      | None => NaN
      end
  | _, _ => NaN
  end.

(** [a < b]; false as soon as one side is NaN. *)
Definition ltb (a b : num) : bool :=
  match a, b with
  | NaN, _ | _, NaN => false
  | Fin x, Fin y => match (x ?= y)%Q with Lt => true | _ => false end
  | NInf, NInf => false
  | NInf, _ => true
  | _, PInf => match a with PInf => false | _ => true end
  | _, _ => false
  end.

Definition gtb (a b : num) : bool := ltb b a.

(** [a >= b]; false as soon as one side is NaN. *)
Definition geb (a b : num) : bool :=
  match a, b with
  | NaN, _ | _, NaN => false
  | _, _ => negb (ltb a b)
  end.

(** [a === b] on numbers. *)
Definition eqb (a b : num) : bool :=
  match a, b with
  | Fin x, Fin y => Qeq_bool x y
  | PInf, PInf | NInf, NInf => true
  | _, _ => false
  end.

(** ToIntegerOrInfinity restricted to finite numbers: truncation toward
    zero. *)
Definition truncQ (q : Q) : Z := Z.quot (Qnum q) (Zpos (Qden q)).

(** [n / d] rounded to the nearest integer, a tie going to the even one;
    for [0 <= n] and [0 < d]. *)
Definition roundHalfEven (n d : Z) : Z :=
  let m := n / d in
  match (2 * (n mod d) ?= d) with
  | Lt => m
  | Gt => m + 1
  | Eq => if Z.even m then m else m + 1
  end.

(** The exponent [e] with 2^e <= n / d < 2^(e + 1), for [0 < n] and
    [0 < d]. *)
Definition floorLog2 (n d : Z) : Z :=
  let e := Z.log2 n - Z.log2 d in
  let below :=
    if 0 <=? e then n <? 2 ^ e * d else n * 2 ^ (- e) <? d in
  if below then e - 1 else e.

(** The binary64 number nearest to [q], a tie going to the even
    significand: [m * 2^k] with [m] of at most 53 bits and [k] at least
    -1074 (below 2^-1022 the numbers are subnormal, and the smallest
    magnitudes round to zero); a result that reaches 2^1024 is an
    infinity. *)
Definition binary64 (q : Q) : num :=
  match Qnum q with
  | Z0 => Fin 0
  | _ =>
      let n := Z.abs (Qnum q) in
      let d := Zpos (Qden q) in
      let k := Z.max (floorLog2 n d) (-1022) - 52 in
      let m :=
        if 0 <=? k then roundHalfEven n (d * 2 ^ k)
        else roundHalfEven (n * 2 ^ (- k)) d in
      let s := Z.sgn (Qnum q) in
      if 0 <=? k then
        if 2 ^ 1024 <=? m * 2 ^ k then infOfSign s
        else Fin (inject_Z (s * m * 2 ^ k))
      else Fin (Qred (Qmake (s * m) (Z.to_pos (2 ^ (- k)))))
  end.

(** The result of an arithmetic operation as the machine keeps it. *)
Definition rounded (a : num) : num :=
  match a with
  | Fin q => binary64 q
  | _ => a
  end.

End Num.

Export Num.

Declare Scope num_scope.
Delimit Scope num_scope with num.
Bind Scope num_scope with num.
Notation "a + b" := (Num.add a b) : num_scope.
Notation "a - b" := (Num.sub a b) : num_scope.
Notation "a * b" := (Num.mul a b) : num_scope.
Notation "a / b" := (Num.div a b) : num_scope.
Notation "a <? b" := (Num.ltb a b) : num_scope.
Notation "a >? b" := (Num.gtb a b) : num_scope.
Notation "a >=? b" := (Num.geb a b) : num_scope.

(** ** Values *)

#[warnings="-register-all"]
Inductive jsval : Type :=
| JUndefined
| JNull
| JBool (b : bool)
| JNum (n : num)
| JStr (s : string)
| JArr (l : list jsval)
| JObj (m : gmap string jsval).

(** ToBoolean. *)
Definition truthy (v : jsval) : bool :=
  match v with
  | JUndefined | JNull => false
  | JBool b => b
  | JNum NaN => false
  | JNum (Fin q) => negb (Qeq_bool q 0)
  | JNum _ => true
  | JStr s => negb (String.eqb s "")
  | JArr _ | JObj _ => true
  end.

(** [v.k] for a receiver that is not null or undefined.  The code reads
    only named properties that no array or primitive has, so those
    receivers yield undefined. *)
Definition prop (v : jsval) (k : string) : jsval :=
  match v with
  | JObj m => default JUndefined (m !! k)
  | _ => JUndefined
  end.

(** [a || b]. *)
Definition jsOr (a b : jsval) : jsval := if truthy a then a else b.

(** ** Numeric parsers of the language *)

Module Coerce.

Definition isWhite (c : ascii) : bool :=
  match nat_of_ascii c with
  | 9%nat | 10%nat | 11%nat | 12%nat | 13%nat | 32%nat => true
  | _ => false
  end.

Fixpoint skipWhite (s : string) : string :=
  match s with
  | String c r => if isWhite c then skipWhite r else s
  | EmptyString => s
  end.

Definition onlyWhite (s : string) : bool := String.eqb (skipWhite s) "".

(** Value of [c] as a digit of the given radix, when it is one. *)
Definition radixVal (radix : Z) (c : ascii) : option Z :=
  let n := Z.of_nat (nat_of_ascii c) in
  let v :=
    if (48 <=? n) && (n <=? 57) then Some (n - 48)
    else if (97 <=? n) && (n <=? 122) then Some (n - 87)
    else if (65 <=? n) && (n <=? 90) then Some (n - 55)
    else None in
  match v with
  | Some d => if d <? radix then Some d else None
  | None => None
  end.

(** Longest run of digits of the radix: accumulated value, number of
    digits read, and the text that follows. *)
Fixpoint scanRadix (radix : Z) (s : string) (acc : Z) (n : nat)
  : Z * nat * string :=
  match s with
  | String c r =>
      match radixVal radix c with
      | Some d => scanRadix radix r (acc * radix + d) (S n)
      | None => (acc, n, s)
      end
  | EmptyString => (acc, n, s)
  end.

Definition scanDigits (s : string) : Z * nat * string := scanRadix 10 s 0 0.

Definition scanSign (s : string) : Z * string :=
  match s with
  | String "-" r => (-1, r)
  | String "+" r => (1, r)
  | _ => (1, s)
  end.

(** ExponentPart, consumed only when it is complete. *)
Definition scanExponent (s : string) : Z * string :=
  match s with
  | String c r =>
      if Ascii.eqb c "e" || Ascii.eqb c "E" then
        let '(sg, r1) := scanSign r in
        let '(v, n, r2) := scanDigits r1 in
        match n with
        | O => (0, s)
        | S _ => (sg * v, r2)
        end
      else (0, s)
  | EmptyString => (0, s)
  end.

Fixpoint dropChars (n : nat) (s : string) : string :=
  match n, s with
  | S k, String _ r => dropChars k r
  | _, _ => s
  end.

(** Longest prefix that is an unsigned StrDecimalLiteral. *)
Definition scanUnsignedDecimal (s : string) : option (num * string) :=
  if String.prefix "Infinity" s then Some (PInf, dropChars 8 s)
  else
    let '(i, ni, r1) := scanDigits s in
    let '(f, nf, r2) :=
      match r1 with
      | String "." r => scanDigits r
      | _ => (0, O, r1)
      end in
    match (ni + nf)%nat with
    | O => None
    | S _ =>
        let '(e, r3) := scanExponent r2 in
        let mant := inject_Z (i * 10 ^ Z.of_nat nf + f) in
        Some (binary64 (mant * Qpower 10 (e - Z.of_nat nf)), r3)
    end.

Definition scanSigned (s : string) : option (num * string) :=
  let '(sg, r) := scanSign s in
  match scanUnsignedDecimal r with
  | Some (v, r') => Some (if sg <? 0 then Num.opp v else v, r')
  | None => None
  end.

(** [parseFloat] on a string. *)
Definition parseFloatString (s : string) : num :=
  match scanSigned (skipWhite s) with
  | Some (v, _) => v
  | None => NaN
  end.

(** [parseInt] on a string, no radix argument. *)
Definition parseIntString (s : string) : num :=
  let '(sg, s1) := scanSign (skipWhite s) in
  let '(radix, s2) :=
    match s1 with
    | String "0" (String x r) =>
        if Ascii.eqb x "x" || Ascii.eqb x "X" then (16, r) else (10, s1)
    | _ => (10, s1)
    end in
  let '(v, n, _) := scanRadix radix s2 0 0 in
  match n with
  | O => NaN
  | S _ => binary64 (inject_Z (sg * v))
  end.

Definition nonDecimalPrefix (s : string) : option (Z * string) :=
  match s with
  | String "0" (String x r) =>
      if Ascii.eqb x "x" || Ascii.eqb x "X" then Some (16, r)
      else if Ascii.eqb x "o" || Ascii.eqb x "O" then Some (8, r)
      else if Ascii.eqb x "b" || Ascii.eqb x "B" then Some (2, r)
      else None
  | _ => None
  end.

(** ToNumber on a string. *)
Definition toNumberString (s : string) : num :=
  let s1 := skipWhite s in
  if String.eqb s1 "" then Num.ofZ 0
  else
    match nonDecimalPrefix s1 with
    | Some (radix, r) =>
        let '(v, n, rest) := scanRadix radix r 0 0 in
        match n with
        | O => NaN
        | S _ => if onlyWhite rest then binary64 (inject_Z v) else NaN
        end
    | None =>
        match scanSigned s1 with
        | Some (v, rest) => if onlyWhite rest then v else NaN
        | None => NaN
        end
    end.

(** ToString(v) throws a TypeError.  An object is printed by its
    [toString] method; an own property of that name hides the inherited
    method, and since it holds no function the conversion goes on to
    [valueOf], which either is hidden in the same way or returns the object
    itself, and then fails.  An array prints each element that is not null
    or undefined, so it throws when one of them does. *)
Fixpoint toStringThrows (v : jsval) : bool :=
  match v with
  | JObj m =>
      match m !! "toString" with
      | Some _ => true
      | None => false
      end
  | JArr l => existsb toStringThrows l
  | _ => false
  end.

(** [parseFloat v] for an argument that can be turned into a string (see
    [toStringThrows]).  A number prints to a text that reads back as the
    same number.  An array prints its elements separated by commas, so only
    its first element can be read; null and undefined print as the empty
    text inside an array and as words outside, and an object prints as
    "[object Object]", none of which is numeric. *)
Fixpoint parseFloat (v : jsval) : num :=
  match v with
  | JStr s => parseFloatString s
  | JNum n => n
  | JArr (x :: _) => parseFloat x
  | _ => NaN
  end.

(** [parseFloat (x.toFixed 1)]: [toFixed] picks the integer n with n/10
    closest to |x|, the larger one on a tie, and prints magnitudes from
    10^21 on, NaN and the infinities the way ToString does; the text is
    read back as the binary64 number nearest to n/10. *)
Definition toFixed1 (x : num) : num :=
  match x with
  | Fin q =>
      if Qle_bool (inject_Z (10 ^ 21)) (Qabs q) then x
      else
        let n := Qfloor (Qabs q * inject_Z 10 + (1 # 2)) in
        binary64 (Qmake (Z.sgn (Qnum q) * n) 10)
  | _ => x
  end.

End Coerce.

Export Coerce.

(** ** Readings and the state of the server *)

(** A soil or leaf metric of a stored reading: the flat normaliser writes
    null for an absent sensor, the cloud normaliser leaves the property
    unset. *)
Inductive metric : Type :=
| MUndefined
| MNull
| MNum (x : num).

Record reading : Type := mkReading {
  timestamp : Z;
  raw : jsval;
  temperature : option num;
  humidity : option num;
  soilMoisture1 : metric;
  soilMoisture2 : metric;
  leafWetness : metric;
  stationtype : jsval;
  passkey : jsval;
  dateutc : jsval
}.

Record rawRecord : Type := mkRaw {
  rawTimestamp : Z;
  rawSource : option string;
  rawData : jsval
}.

Record state : Type := mkState {
  sensorData : list reading;
  lastRawData : option rawRecord
}.

#[warnings="-abstract-large-number"]
Definition MAX_READINGS : nat := 10000.

(** [const sensorData = []; let lastRawData = null;] *)
Definition initialState : state :=
  {| sensorData := []; lastRawData := None |}.

(** State-passing computations of the handlers. *)
Definition M (A : Type) : Type := state -> A * state.

#[global] Instance M_ret : MRet M := fun A (a : A) st => (a, st).

#[global] Instance M_bind : MBind M :=
  fun A B (f : A -> M B) (c : M A) st => let '(a, st1) := c st in f a st1.

Definition getSensorData : M (list reading) :=
  fun st => (sensorData st, st).

Definition setSensorData (l : list reading) : M unit :=
  fun st => (tt, {| sensorData := l; lastRawData := lastRawData st |}).

Definition setLastRawData (r : rawRecord) : M unit :=
  fun st => (tt, {| sensorData := sensorData st; lastRawData := Some r |}).

(** [sensorData.push(parsed); if (sensorData.length > MAX_READINGS)
    sensorData.shift();] *)
Definition pushReading (parsed : reading) : M unit :=
  l ← getSensorData;
  let l1 := l ++ [parsed] in
  if (MAX_READINGS <? length l1)%nat then setSensorData (tail l1)
  else setSensorData l1.

(** The store after the readings [rs] have been appended one by one. *)
Definition pushAll (rs : list reading) (st : state) : state :=
  fold_left (fun st r => snd (pushReading r st)) rs st.

(** ** Flat normaliser *)

(** [(parseFloat(v) - 32) * 5/9]: a subtraction, a multiplication and a
    division, each rounding its result. *)
Definition fahrenheitToCelsius (v : jsval) : num :=
  rounded (rounded (rounded (parseFloat v - ofZ 32) * ofZ 5) / ofZ 9)%num.

Definition flatTemperature (data : jsval) : option num :=
  if truthy (prop data "tempf") then
    Some (fahrenheitToCelsius (prop data "tempf"))
  else if truthy (prop data "temp1f") then
    Some (fahrenheitToCelsius (prop data "temp1f"))
  else if truthy (prop data "tempinf") then
    Some (fahrenheitToCelsius (prop data "tempinf"))
  else if truthy (prop data "temp") then
    Some (parseFloat (prop data "temp"))
  else None.

Definition flatHumidity (data : jsval) : option num :=
  if truthy (prop data "humidity") then
    Some (parseFloat (prop data "humidity"))
  else if truthy (prop data "humidity1") then
    Some (parseFloat (prop data "humidity1"))
  else if truthy (prop data "humidityin") then
    Some (parseFloat (prop data "humidityin"))
  else None.

(** [data.a ? parseFloat(data.a) : data.b ? parseFloat(data.b) : ... : null] *)
Fixpoint firstTruthy (data : jsval) (names : list string) : metric :=
  match names with
  | k :: rest =>
      if truthy (prop data k) then MNum (parseFloat (prop data k))
      else firstTruthy data rest
  | [] => MNull
  end.

(** The argument of the one call of [parseFloat] that a chain
    [data.a ? parseFloat(data.a) : data.b ? parseFloat(data.b) : ...] or
    [if (data.a) ... else if (data.b) ...] makes: its first truthy field,
    if it has one. *)
Fixpoint firstTruthyValue (data : jsval) (names : list string) : list jsval :=
  match names with
  | k :: rest =>
      if truthy (prop data k) then [prop data k]
      else firstTruthyValue data rest
  | [] => []
  end.

(** The arguments of the calls of [parseFloat] that [parseEcowittData]
    makes on [data]. *)
Definition parseFloatArguments (data : jsval) : list jsval :=
  firstTruthyValue data ["tempf"; "temp1f"; "tempinf"; "temp"]
  ++ firstTruthyValue data ["humidity"; "humidity1"; "humidityin"]
  ++ firstTruthyValue data ["soilmoisture1"; "soilhum1"]
  ++ firstTruthyValue data ["soilmoisture2"; "soilhum2"]
  ++ firstTruthyValue data ["leafwetness_ch1"; "leafwetness1"; "leafwet_ch1"].

(** [parseEcowittData(data)].  Reading a property of null or undefined
    throws, and so does a call of [parseFloat] on a value that cannot be
    turned into a string; the result is then [None]. *)
Definition parseEcowittData (now : Z) (data : jsval) : option reading :=
  match data with
  | JUndefined | JNull => None
  | _ =>
      if existsb toStringThrows (parseFloatArguments data) then None
      else
        Some {|
          timestamp := now;
          raw := data;
          temperature := flatTemperature data;
          humidity := flatHumidity data;
          soilMoisture1 := firstTruthy data ["soilmoisture1"; "soilhum1"];
          soilMoisture2 := firstTruthy data ["soilmoisture2"; "soilhum2"];
          leafWetness :=
            firstTruthy data
              ["leafwetness_ch1"; "leafwetness1"; "leafwet_ch1"];
          stationtype := jsOr (prop data "stationtype") (JStr "Unknown");
          passkey :=
            jsOr (jsOr (jsOr (prop data "PASSKEY") (prop data "passkey"))
                       (prop data "ID"))
                 (JStr "Unknown");
          dateutc := prop data "dateutc"
        |}
  end.

(** The storage test shared by every ingestion path:
    [parsed.temperature !== undefined || parsed.soilMoisture1 !== null ||
     parsed.soilMoisture2 !== null || parsed.leafWetness !== null]. *)
Definition notNull (m : metric) : bool :=
  match m with MNull => false | _ => true end.

Definition defined {A : Type} (o : option A) : bool :=
  match o with Some _ => true | None => false end.

Definition hasSensorData (parsed : reading) : bool :=
  defined (temperature parsed)
  || notNull (soilMoisture1 parsed)
  || notNull (soilMoisture2 parsed)
  || notNull (leafWetness parsed).

(** [app.post('/api/ecowitt', ...)]: status and text sent back. *)
Definition postEcowitt (now : Z) (body : jsval) : M (nat * string) :=
  _ ← setLastRawData
        {| rawTimestamp := now; rawSource := None; rawData := body |};
  match parseEcowittData now body with
  | Some parsed =>
      _ ← (if hasSensorData parsed then pushReading parsed else mret tt);
      mret (200%nat, "success")
  | None => mret (500%nat, "error")
  end.

(** ** Cloud normaliser *)

(** [data.a && data.a.b && data.a.b.value] as a condition. *)
Definition hasValue (data : jsval) (a b : string) : bool :=
  truthy (prop data a)
  && truthy (prop (prop data a) b)
  && truthy (prop (prop (prop data a) b) "value").

Definition valueOf (data : jsval) (a b : string) : jsval :=
  prop (prop (prop data a) b) "value".

Definition setTemperature (x : num) (p : reading) : reading :=
  mkReading (timestamp p) (raw p) (Some x) (humidity p) (soilMoisture1 p)
    (soilMoisture2 p) (leafWetness p) (stationtype p) (passkey p) (dateutc p).

Definition setHumidity (x : num) (p : reading) : reading :=
  mkReading (timestamp p) (raw p) (temperature p) (Some x) (soilMoisture1 p)
    (soilMoisture2 p) (leafWetness p) (stationtype p) (passkey p) (dateutc p).

Definition setSoilMoisture1 (x : num) (p : reading) : reading :=
  mkReading (timestamp p) (raw p) (temperature p) (humidity p) (MNum x)
    (soilMoisture2 p) (leafWetness p) (stationtype p) (passkey p) (dateutc p).

Definition setSoilMoisture2 (x : num) (p : reading) : reading :=
  mkReading (timestamp p) (raw p) (temperature p) (humidity p)
    (soilMoisture1 p) (MNum x) (leafWetness p) (stationtype p) (passkey p)
    (dateutc p).

Definition setLeafWetness (x : num) (p : reading) : reading :=
  mkReading (timestamp p) (raw p) (temperature p) (humidity p)
    (soilMoisture1 p) (soilMoisture2 p) (MNum x) (stationtype p) (passkey p)
    (dateutc p).

(** [if (c) parsed = f parsed] *)
Definition when (c : bool) (f : reading -> reading) (p : reading) : reading :=
  if c then f p else p.

(** [if (c) parsed.m = f(parseFloat(v))]: under the test, the call of
    [parseFloat] throws when [v] cannot be turned into a string. *)
Definition assign (c : bool) (set : num -> reading -> reading) (v : jsval)
    (parsed : reading) : option reading :=
  if c then
    if toStringThrows v then None else Some (set (parseFloat v) parsed)
  else Some parsed.

(** [parseEcowittCloudData(data)], for a [data] that is not null or
    undefined (its caller has tested it); [None] when it throws. *)
Definition parseEcowittCloudData (now : Z) (data : jsval) : option reading :=
  let parsed :=
    {| timestamp := now; raw := data;
       temperature := None; humidity := None;
       soilMoisture1 := MUndefined; soilMoisture2 := MUndefined;
       leafWetness := MUndefined;
       stationtype := JUndefined; passkey := JUndefined;
       dateutc := JUndefined |} in
  parsed ← assign (hasValue data "indoor" "temperature")
             (fun x => setTemperature (toFixed1 x))
             (valueOf data "indoor" "temperature") parsed;
  parsed ← assign (hasValue data "indoor" "humidity")
             setHumidity (valueOf data "indoor" "humidity") parsed;
  parsed ← assign (hasValue data "outdoor" "temperature")
             (fun x => setTemperature (toFixed1 x))
             (valueOf data "outdoor" "temperature") parsed;
  parsed ← assign (hasValue data "outdoor" "humidity")
             setHumidity (valueOf data "outdoor" "humidity") parsed;
  parsed ← assign (hasValue data "soil_ch1" "soilmoisture")
             (fun x => setSoilMoisture1 (toFixed1 x))
             (valueOf data "soil_ch1" "soilmoisture") parsed;
  parsed ← assign (hasValue data "soil_ch2" "soilmoisture")
             (fun x => setSoilMoisture2 (toFixed1 x))
             (valueOf data "soil_ch2" "soilmoisture") parsed;
  assign (hasValue data "leaf_ch1" "leaf_wetness")
    (fun x => setLeafWetness (toFixed1 x))
    (valueOf data "leaf_ch1" "leaf_wetness") parsed.

(** [data.code === 0] *)
Definition isZero (v : jsval) : bool :=
  match v with
  | JNum (Fin q) => Qeq_bool q 0
  | _ => false
  end.

(** What [fetchEcowittData] does with the envelope [data] it has fetched.
    A response that is null or undefined makes [data.code] throw, which
    the function catches and logs; it catches an exception of the
    normaliser in the same way, after [lastRawData] has been set. *)
Definition ingestCloud (now : Z) (data : jsval) : M unit :=
  match data with
  | JUndefined | JNull => mret tt
  | _ =>
      if isZero (prop data "code") && truthy (prop data "data") then
        _ ← setLastRawData
              {| rawTimestamp := now; rawSource := Some "ecowitt-cloud";
                 rawData := prop data "data" |};
        match parseEcowittCloudData now (prop data "data") with
        | Some parsed =>
            if hasSensorData parsed then pushReading parsed else mret tt
        | None => mret tt
        end
      else mret tt
  end.

(** ** Array.prototype.sort *)

(** The sort of the engine the server runs on (V8, as in Node.js 11 and
    later), for an array without holes or undefined elements.  An array
    of fewer than 64 elements is one run: [countAndMakeRun] takes the
    longest prefix that is ascending, or strictly descending and then
    reversed, and [binaryInsertionSort] inserts the remaining elements one
    by one.  The comparator is called with the later element first.  Longer
    arrays are cut into such runs and merged; for a comparator that is a
    consistent order the result is the same stable ordering, which is the
    only use made of longer arrays here. *)
Section ArraySort.

Context {A : Type}.
Variable comparefn : A -> A -> num.

(** [order < 0], a NaN result counting as 0. *)
Definition orderNegative (a b : A) : bool := (comparefn a b <? ofZ 0)%num.

Fixpoint runTail (descending : bool) (previous : A) (l : list A) : nat :=
  match l with
  | current :: rest =>
      if Bool.eqb descending (orderNegative current previous)
      then S (runTail descending current rest)
      else O
  | [] => O
  end.

(** The initial run, made ascending, and the elements after it. *)
Definition countAndMakeRun (l : list A) : list A * list A :=
  match l with
  | elementHigh :: elementLow :: rest =>
      let descending := orderNegative elementLow elementHigh in
      let runLength := (2 + runTail descending elementLow rest)%nat in
      let run := take runLength l in
      (if descending then reverse run else run, drop runLength l)
  | _ => (l, [])
  end.

(** Binary search of the place of [pivot] in [arr] between [left] and
    [right]; the interval shrinks at every step, so [fuel] = its width
    is enough. *)
Fixpoint searchPlace (fuel : nat) (pivot : A) (arr : list A)
    (left right : nat) : nat :=
  match fuel with
  | O => left
  | S fuel' =>
      if (left <? right)%nat then
        let mid := (left + (right - left) / 2)%nat in
        match arr !! mid with
        | Some x =>
            if orderNegative pivot x
            then searchPlace fuel' pivot arr left mid
            else searchPlace fuel' pivot arr (S mid) right
        | None => left
        end
      else left
  end.

Definition insertPivot (sorted : list A) (pivot : A) : list A :=
  let left := searchPlace (length sorted) pivot sorted 0 (length sorted) in
  take left sorted ++ pivot :: drop left sorted.

Definition binaryInsertionSort (run rest : list A) : list A :=
  fold_left insertPivot rest run.

Definition arraySort (l : list A) : list A :=
  let '(run, rest) := countAndMakeRun l in
  binaryInsertionSort run rest.

End ArraySort.

(** Order of two neighbours of a run, for elements singled out by [P]:
    [stepRel d a b] says that [b] may follow [a], in an ascending run when
    [d] is false and in a strictly descending one when it is true. *)
Definition stepRel {A : Type} (comparefn : A -> A -> num) (P : A -> Prop)
    (d : bool) : relation A :=
  fun a b => P a /\ P b /\ orderNegative comparefn b a = d.

(** ** Statistics *)

Record stats : Type := mkStats {
  min : metric;
  max : metric;
  avg : num;
  median : metric;
  count : nat
}.

(** ToNumber on an array element. *)
Definition metricToNumber (m : metric) : num :=
  match m with
  | MNum x => x
  | MNull => ofZ 0
  | MUndefined => NaN
  end.

Definition isUndefined (m : metric) : bool :=
  match m with MUndefined => true | _ => false end.

(** [(a, b) => a - b]; the sort looks at the sign of the result only. *)
Definition byDifference (a b : metric) : num :=
  (metricToNumber a - metricToNumber b)%num.

(** [values.sort((a, b) => a - b)]: undefined elements go to the end
    without being compared. *)
Definition sortValues (values : list metric) : list metric :=
  arraySort byDifference (filter (fun m => isUndefined m = false) values)
  ++ filter (fun m => isUndefined m = true) values.

(** [sorted[i]] *)
Definition at_ (l : list metric) (i : nat) : metric :=
  default MUndefined (l !! i).

(** [calculateStats(values)].  The sort is in place, so [values] and
    [sorted] are the same array when the sum is taken. *)
Definition calculateStats (values : list metric) : option stats :=
  match length values with
  | O => None
  | S _ =>
      let sorted := sortValues values in
      let values := sorted in
      let sum :=
        fold_left (fun a b => rounded (a + metricToNumber b)%num) values
          (ofZ 0) in
      Some {|
        min := at_ sorted 0;
        max := at_ sorted (length sorted - 1);
        avg := rounded (sum / ofZ (Z.of_nat (length values)))%num;
        median := at_ sorted (length sorted / 2);
        count := length values
      |}
  end.

(** ** Read endpoints *)

(** [new Date(t)]: the time value, or [None] for an invalid date. *)
Definition timeClip (t : num) : option Z :=
  match t with
  | Fin q =>
      if Qle_bool (Qabs q) (inject_Z 8640000000000000) then Some (truncQ q)
      else None
  | _ => None
  end.

(** [new Date(Date.now() - hours * 60 * 60 * 1000)], every operation
    rounding its result. *)
Definition cutoffTime (now : Z) (hours : num) : option Z :=
  timeClip
    (rounded
       (ofZ now
        - rounded (rounded (rounded (hours * ofZ 60) * ofZ 60) * ofZ 1000)))%num.

(** [new Date(r.timestamp) >= cutoffTime] *)
Definition notBefore (cutoff : option Z) (r : reading) : bool :=
  match cutoff with
  | Some c => c <=? timestamp r
  | None => false
  end.

(** [l.slice(start)] *)
Definition sliceFrom {A : Type} (start : num) (l : list A) : list A :=
  let len := Z.of_nat (length l) in
  let k :=
    match start with
    | NaN | NInf => 0
    | PInf => len
    | Fin q =>
        let relativeStart := truncQ q in
        if relativeStart <? 0 then Z.max (len + relativeStart) 0
        else Z.min relativeStart len
    end in
  drop (Z.to_nat k) l.

(** [l[l.length - 1]] *)
Definition lastReading (l : list reading) : option reading := last l.

Inductive latestResponse : Type :=
| LatestNoData (message : string)
| LatestReading (r : reading).

(** [app.get('/api/data/latest', ...)] *)
Definition getLatest : M latestResponse :=
  l ← getSensorData;
  match lastReading l with
  | None =>
      mret (LatestNoData
              "No data available yet. Waiting for Ecowitt cloud sync.")
  | Some latest => mret (LatestReading latest)
  end.

Record historyResponse : Type := mkHistory {
  historyCount : nat;
  historyReadings : list reading
}.

(** [if (hours) { filtered = filtered.filter(r => new Date(r.timestamp) >=
    cutoffTime) }] *)
Definition filterByHours (now : Z) (hours : option string)
    (filtered : list reading) : list reading :=
  match hours with
  | Some h =>
      if truthy (JStr h)
      then filter (fun r => notBefore (cutoffTime now (toNumberString h)) r
                            = true) filtered
      else filtered
  | None => filtered
  end.

(** [app.get('/api/data/history', ...)]; [limit] and [hours] are the query
    parameters, [None] when the request has none. *)
Definition getHistory (now : Z) (limit hours : option string)
  : M historyResponse :=
  l ← getSensorData;
  let filtered := l in
  let filtered := filterByHours now hours filtered in
  let limitNum :=
    match limit with
    | Some s => parseIntString s
    | None => ofZ 100
    end in
  let filtered := sliceFrom (Num.opp limitNum) filtered in
  mret {| historyCount := length filtered; historyReadings := filtered |}.

Record statsReport : Type := mkReport {
  statsTemperature : option stats;
  statsSoilMoisture1 : option stats;
  statsSoilMoisture2 : option stats;
  statsLeafWetness : option stats;
  statsCount : nat;
  timeRangeStart : option Z;
  timeRangeEnd : option Z
}.

Inductive statsResponse : Type :=
| StatsNoData (message : string)
| StatsReport (s : statsReport).

Definition temperatureValue (r : reading) : metric :=
  match temperature r with
  | Some x => MNum x
  | None => MUndefined
  end.

(** [app.get('/api/data/stats', ...)] *)
Definition getStats (now : Z) (hours : option string) : M statsResponse :=
  l ← getSensorData;
  let hoursNum :=
    match hours with
    | Some h => toNumberString h
    | None => ofZ 24
    end in
  let filtered :=
    filter (fun r => notBefore (cutoffTime now hoursNum) r = true) l in
  match filtered with
  | [] => mret (StatsNoData "No data available for this period")
  | first :: _ =>
      mret (StatsReport {|
        statsTemperature :=
          calculateStats
            (filter (fun v => isUndefined v = false)
                    (map temperatureValue filtered));
        statsSoilMoisture1 :=
          calculateStats
            (filter (fun v => notNull v = true)
                    (map soilMoisture1 filtered));
        statsSoilMoisture2 :=
          calculateStats
            (filter (fun v => notNull v = true)
                    (map soilMoisture2 filtered));
        statsLeafWetness :=
          calculateStats
            (filter (fun v => notNull v = true)
                    (map leafWetness filtered));
        statsCount := length filtered;
        timeRangeStart := Some (timestamp first);
        timeRangeEnd := timestamp <$> last filtered
      |})
  end.

(** ** Alerts *)

(** The text of an alert: which template of the handler it comes from and
    what the template interpolates. *)
Inductive alertMessage : Type :=
| TemperatureCritically (low : bool) (value : num)
| TemperatureOutsideIdeal (value : num)
| SoilCritically (sensor : nat) (dry : bool) (value : num)
| SoilOutsideIdeal (sensor : nat) (value : num)
| HighLeafWetness (value : num)
| ElevatedLeafWetness (value : num).

Record alert : Type := mkAlert {
  alertMetric : string;
  alertValue : num;
  severity : string;
  message : alertMessage
}.

(** [const ranges = { temperature: { min: 18, max: 25, critical: { min: 10,
    max: 35 } }, soilMoisture: { min: 30, max: 60, critical: { min: 20,
    max: 80 } }, leafWetness: { max: 70, critical: { max: 85 } } }] *)
Definition ranges_temperature_min : num := ofZ 18.
Definition ranges_temperature_max : num := ofZ 25.
Definition ranges_temperature_critical_min : num := ofZ 10.
Definition ranges_temperature_critical_max : num := ofZ 35.
Definition ranges_soilMoisture_min : num := ofZ 30.
Definition ranges_soilMoisture_max : num := ofZ 60.
Definition ranges_soilMoisture_critical_min : num := ofZ 20.
Definition ranges_soilMoisture_critical_max : num := ofZ 80.
Definition ranges_leafWetness_max : num := ofZ 70.
Definition ranges_leafWetness_critical_max : num := ofZ 85.

Definition temperatureAlerts (latest : reading) : list alert :=
  match temperature latest with
  | Some temp =>
      if (temp <? ranges_temperature_critical_min)%num
         || (temp >? ranges_temperature_critical_max)%num then
        [ {| alertMetric := "temperature"; alertValue := temp;
             severity := "critical";
             message :=
               TemperatureCritically
                 (temp <? ranges_temperature_critical_min)%num temp |} ]
      else if (temp <? ranges_temperature_min)%num
              || (temp >? ranges_temperature_max)%num then
        [ {| alertMetric := "temperature"; alertValue := temp;
             severity := "warning";
             message := TemperatureOutsideIdeal temp |} ]
      else []
  | None => []
  end.

(** [`soilMoisture${num}`] for the two sensors. *)
Definition soilMetricName (sensor : nat) : string :=
  match sensor with
  | 1%nat => "soilMoisture1"
  | _ => "soilMoisture2"
  end.

Definition soilAlerts (latest : reading) (sensor : nat) : list alert :=
  let moisture :=
    match sensor with
    | 1%nat => soilMoisture1 latest
    | _ => soilMoisture2 latest
    end in
  match moisture with
  | MNum moisture =>
      if (moisture <? ranges_soilMoisture_critical_min)%num
         || (moisture >? ranges_soilMoisture_critical_max)%num then
        [ {| alertMetric := soilMetricName sensor; alertValue := moisture;
             severity := "critical";
             message :=
               SoilCritically sensor
                 (moisture <? ranges_soilMoisture_critical_min)%num
                 moisture |} ]
      else if (moisture <? ranges_soilMoisture_min)%num
              || (moisture >? ranges_soilMoisture_max)%num then
        [ {| alertMetric := soilMetricName sensor; alertValue := moisture;
             severity := "warning";
             message := SoilOutsideIdeal sensor moisture |} ]
      else []
  | _ => []
  end.

Definition leafAlerts (latest : reading) : list alert :=
  match leafWetness latest with
  | MNum wetness =>
      if (wetness >? ranges_leafWetness_critical_max)%num then
        [ {| alertMetric := "leafWetness"; alertValue := wetness;
             severity := "critical"; message := HighLeafWetness wetness |} ]
      else if (wetness >? ranges_leafWetness_max)%num then
        [ {| alertMetric := "leafWetness"; alertValue := wetness;
             severity := "warning";
             message := ElevatedLeafWetness wetness |} ]
      else []
  | _ => []
  end.

(** The alerts pushed by the handler, in the order it pushes them. *)
Definition collectAlerts (latest : reading) : list alert :=
  temperatureAlerts latest
  ++ flat_map (soilAlerts latest) [1%nat; 2%nat]
  ++ leafAlerts latest.

(** [(a, b) => a.severity === 'critical' ? -1
                : b.severity === 'critical' ? 1 : 0] *)
Definition bySeverity (a b : alert) : num :=
  if String.eqb (severity a) "critical" then ofZ (-1)
  else if String.eqb (severity b) "critical" then ofZ 1
  else ofZ 0.

(** The alert list of the response: [alerts.sort(...)]. *)
Definition evaluate (latest : reading) : list alert :=
  arraySort bySeverity (collectAlerts latest).

Inductive alertsResponse : Type :=
| AlertsNoData (message : string)
| Alerts (alertCount : nat) (alerts : list alert) (at_time : Z).

(** [app.get('/api/alerts', ...)] *)
Definition getAlerts : M alertsResponse :=
  l ← getSensorData;
  match lastReading l with
  | None => mret (AlertsNoData "No data available yet")
  | Some latest =>
      let alerts := collectAlerts latest in
      mret (Alerts (length alerts) (arraySort bySeverity alerts)
                   (timestamp latest))
  end.

(** ** Sequences of reads *)

Inductive readOp : Type :=
| ReadLatest
| ReadStats (hours : option string)
| ReadAlerts.

Inductive readResult : Type :=
| GotLatest (r : latestResponse)
| GotStats (r : statsResponse)
| GotAlerts (r : alertsResponse).

Definition runRead (now : Z) (op : readOp) : M readResult :=
  match op with
  | ReadLatest => r ← getLatest; mret (GotLatest r)
  | ReadStats hours => r ← getStats now hours; mret (GotStats r)
  | ReadAlerts => r ← getAlerts; mret (GotAlerts r)
  end.

(** The reads [ops] served one after the other, the clock standing at
    [now]. *)
Fixpoint runReads (now : Z) (ops : list readOp) : M (list readResult) :=
  match ops with
  | [] => mret []
  | op :: rest =>
      r ← runRead now op;
      rs ← runReads now rest;
      mret (r :: rs)
  end.

(** ** The server as a whole *)

(** What reaches the server: a webhook post, a response fetched by the
    poller, or a read. *)
Inductive request : Type :=
| PostEcowitt (now : Z) (body : jsval)
| CloudResponse (now : Z) (data : jsval)
| GetHistory (now : Z) (limit hours : option string)
| Read (now : Z) (op : readOp).

Definition handle (req : request) (st : state) : state :=
  match req with
  | PostEcowitt now body => snd (postEcowitt now body st)
  | CloudResponse now data => snd (ingestCloud now data st)
  | GetHistory now limit hours => snd (getHistory now limit hours st)
  | Read now op => snd (runRead now op st)
  end.

(** The state after the requests [reqs], served in turn from start-up. *)
Definition serve (reqs : list request) : state :=
  fold_left (fun st req => handle req st) reqs initialState.

(** ** The alert policy in the words of the specification *)

(** A band with an optional lower bound: a value is outside when it is
    below the lower bound or above the upper bound. *)
Record band : Type := mkBand {
  lower : option num;
  upper : num
}.

Definition outside (b : band) (v : num) : bool :=
  match lower b with
  | Some lo => (v <? lo)%num
  | None => false
  end
  || (v >? upper b)%num.

(** Policy: outside the critical band, "critical"; else outside the ideal
    band, "warning"; else no alert. *)
Definition policySeverity (ideal critical : band) (v : num) : option string :=
  if outside critical v then Some "critical"
  else if outside ideal v then Some "warning"
  else None.

Definition temperatureIdeal : band := mkBand (Some (ofZ 18)) (ofZ 25).
Definition temperatureCritical : band := mkBand (Some (ofZ 10)) (ofZ 35).
Definition soilIdeal : band := mkBand (Some (ofZ 30)) (ofZ 60).
Definition soilCritical : band := mkBand (Some (ofZ 20)) (ofZ 80).
Definition leafIdeal : band := mkBand None (ofZ 70).
Definition leafCritical : band := mkBand None (ofZ 85).

(** The metric and severity of the alert the policy asks for. *)
Definition policyAlerts (name : string) (ideal critical : band) (v : num)
  : list (string * string) :=
  match policySeverity ideal critical v with
  | Some sv => [(name, sv)]
  | None => []
  end.

Definition metricAndSeverity (a : alert) : string * string :=
  (alertMetric a, severity a).

(** No warning comes before a critical alert. *)
Fixpoint criticalFirst (l : list alert) : bool :=
  match l with
  | [] => true
  | a :: rest =>
      (String.eqb (severity a) "critical"
       || forallb (fun b => negb (String.eqb (severity b) "critical")) rest)
      && criticalFirst rest
  end.

(** ** Health and debug endpoints *)

Record healthResponse : Type := mkHealth {
  healthTimestamp : Z;
  totalReadings : nat;
  lastUpdate : option Z
}.

(** [app.get('/', ...)]: the fields of the answer that depend on the
    state or the clock. *)
Definition getHealth (now : Z) : M healthResponse :=
  l ← getSensorData;
  mret {| healthTimestamp := now;
          totalReadings := length l;
          lastUpdate := timestamp <$> lastReading l |}.

Record debugResponse : Type := mkDebug {
  debugLastRawData : option rawRecord;
  debugTotalReadings : nat;
  latestParsed : option reading
}.

(** [app.get('/api/debug', ...)] *)
Definition getDebug : M debugResponse :=
  fun st =>
    ({| debugLastRawData := lastRawData st;
        debugTotalReadings := length (sensorData st);
        latestParsed := lastReading (sensorData st) |}, st).

(** ** Insights: what the handler works out before it calls out *)

Record insightStats : Type := mkInsightStats {
  tempAvg : num;
  tempTrend : num;
  soil1Avg : num;
  soil1Trend : num;
  soil2Avg : num;
  soil2Trend : num;
  leafAvg : num;
  highLeafCount : nat
}.

(** [v => v] on the values of a metric. *)
Definition truthyMetric (m : metric) : bool :=
  match m with
  | MNum x => truthy (JNum x)
  | _ => false
  end.

(** [values.reduce((a, b) => a + b, 0) / values.length] *)
Definition averageOf (values : list metric) : num :=
  rounded
    (fold_left (fun a b => rounded (a + metricToNumber b)%num) values (ofZ 0)
     / ofZ (Z.of_nat (length values)))%num.

(** [values[values.length - 1] - values[0]] *)
Definition trendOf (values : list metric) : num :=
  rounded (metricToNumber (at_ values (length values - 1))
           - metricToNumber (at_ values 0))%num.

(** [sensorData.slice(-50)] *)
Definition recentData (l : list reading) : list reading :=
  sliceFrom (ofZ (-50)) l.

(** [recentData.map(d => d.m).filter(v => v)] *)
Definition truthyValues (m : reading -> metric) (l : list reading)
  : list metric :=
  filter (fun v => truthyMetric v = true) (map m l).

(** The [stats] object of the insights handler. *)
Definition insightFigures (l : list reading) : insightStats :=
  let temps := truthyValues temperatureValue (recentData l) in
  let soil1 := truthyValues soilMoisture1 (recentData l) in
  let soil2 := truthyValues soilMoisture2 (recentData l) in
  let leaf := truthyValues leafWetness (recentData l) in
  {| tempAvg := averageOf temps;
     tempTrend := trendOf temps;
     soil1Avg := averageOf soil1;
     soil1Trend := trendOf soil1;
     soil2Avg := averageOf soil2;
     soil2Trend := trendOf soil2;
     leafAvg := averageOf leaf;
     highLeafCount :=
       length (filter (fun v => (metricToNumber v >? ofZ 70)%num = true)
                      leaf) |}.

Inductive insightsPreparation : Type :=
| NeedMoreData (message : string)
| Figures (latest : option reading) (recentCount : nat) (stats : insightStats).

(** [app.get('/api/insights', ...)] up to its first network call: the
    early answer for a store of fewer than ten readings, otherwise the
    latest reading, the size of the recent window and the figures that go
    into the request to the summariser. *)
Definition prepareInsights : M insightsPreparation :=
  l ← getSensorData;
  if (length l <? 10)%nat then
    mret (NeedMoreData
            "Need more data for insights. Collecting readings... Check back in a few minutes.")
  else
    mret (Figures (lastReading l) (length (recentData l)) (insightFigures l)).

(** ** The cloud normaliser of the earlier revision (lines 454-550) *)

Module V11.

(** [!parsed.temperature] *)
Definition unset (o : option num) : bool :=
  match o with
  | Some x => negb (truthy (JNum x))
  | None => true
  end.

(** [Array.isArray(v)] *)
Definition isArray (v : jsval) : bool :=
  match v with JArr _ => true | _ => false end.

(** [v[i]] for a receiver that is not null or undefined. *)
Definition element (v : jsval) (i : nat) : jsval :=
  match v with
  | JArr l => default JUndefined (l !! i)
  | _ => JUndefined
  end.

(** [sensor.humidity] inside the loop over the soil channels: a null or
    undefined entry makes it throw. *)
Definition sensorHumidity (sensor : jsval) : option jsval :=
  match sensor with
  | JUndefined | JNull => None
  | _ => Some (prop sensor "humidity")
  end.

(** One round of [data.soil_ch.forEach((sensor, index) => ...)] for the
    index 0 or 1; later entries are not looked at. *)
Definition soilEntry (set : num -> reading -> reading) (entry : option jsval)
    (parsed : reading) : option reading :=
  match entry with
  | None => Some parsed
  | Some sensor =>
      h ← sensorHumidity sensor;
      assign (truthy h) set (prop h "value") parsed
  end.

Definition soilChannels (data : jsval) (parsed : reading) : option reading :=
  if truthy (prop data "soil_ch") && isArray (prop data "soil_ch") then
    match prop data "soil_ch" with
    | JArr l =>
        match soilEntry setSoilMoisture1 (l !! 0%nat) parsed with
        | Some parsed1 => soilEntry setSoilMoisture2 (l !! 1%nat) parsed1
        | None => None
        end
    | _ => Some parsed
    end
  else Some parsed.

(** [parseEcowittCloudData(data)] of that revision; [None] when it
    throws. *)
Definition parseEcowittCloudData (now : Z) (data : jsval) : option reading :=
  let parsed :=
    {| timestamp := now; raw := data;
       temperature := None; humidity := None;
       soilMoisture1 := MUndefined; soilMoisture2 := MUndefined;
       leafWetness := MUndefined;
       stationtype := JUndefined; passkey := JUndefined;
       dateutc := JUndefined |} in
  let outdoor := prop data "outdoor" in
  let indoor := prop data "indoor" in
  parsed ← assign (truthy outdoor && truthy (prop outdoor "temperature"))
             setTemperature (prop (prop outdoor "temperature") "value")
             parsed;
  parsed ← assign (truthy outdoor && truthy (prop outdoor "humidity"))
             setHumidity (prop (prop outdoor "humidity") "value") parsed;
  parsed ← assign (truthy indoor && unset (temperature parsed)
                   && truthy (prop indoor "temperature"))
             setTemperature (prop (prop indoor "temperature") "value")
             parsed;
  parsed ← assign (truthy indoor && unset (humidity parsed)
                   && truthy (prop indoor "humidity"))
             setHumidity (prop (prop indoor "humidity") "value") parsed;
  parsed ← soilChannels data parsed;
  let leaf := prop data "leaf_ch" in
  assign (truthy leaf && isArray leaf
          && truthy (element leaf 0)
          && truthy (prop (element leaf 0) "humidity"))
    setLeafWetness (prop (prop (element leaf 0) "humidity") "value") parsed.

(** What [fetchEcowittData] of that revision does with the envelope it
    has fetched; an exception of the normaliser is caught after
    [lastRawData] has been set. *)
Definition ingestCloud (now : Z) (data : jsval) : M unit :=
  match data with
  | JUndefined | JNull => mret tt
  | _ =>
      if isZero (prop data "code") && truthy (prop data "data") then
        _ ← setLastRawData
              {| rawTimestamp := now; rawSource := Some "ecowitt-cloud";
                 rawData := prop data "data" |};
        match parseEcowittCloudData now (prop data "data") with
        | Some parsed =>
            if hasSensorData parsed then pushReading parsed else mret tt
        | None => mret tt
        end
      else mret tt
  end.

End V11.

(** ** The clock of a request *)

Definition requestTime (req : request) : Z :=
  match req with
  | PostEcowitt now _ => now
  | CloudResponse now _ => now
  | GetHistory now _ _ => now
  | Read now _ => now
  end.

(** The timestamps of the store, oldest first. *)
Definition storeTimes (st : state) : list Z := timestamp <$> sensorData st.

(** ** Auxiliary notions of the statements *)

(** The store holds at most [MAX_READINGS] readings. *)
Definition bounded (st : state) : Prop :=
  (length (sensorData st) <= MAX_READINGS)%nat.

(** A value that is an ordinary number. *)
Definition finite (q : Q) : metric := MNum (Fin q).

Definition isFiniteValue (m : metric) : Prop := exists q, m = finite q.

(** The fields of a flat payload that the normaliser reads a monitored
    metric from. *)
Definition metricFieldNames : list string :=
  ["tempf"; "temp1f"; "tempinf"; "temp";
   "soilmoisture1"; "soilhum1"; "soilmoisture2"; "soilhum2";
   "leafwetness_ch1"; "leafwetness1"; "leafwet_ch1"].

(** A temperature that raises no alert: absent, not a number, or an
    ordinary number from 18 to 25. *)
Definition quietTemperature (o : option num) : Prop :=
  o = None \/ o = Some NaN
  \/ exists t, o = Some (Fin t) /\ (18 <= t)%Q /\ (t <= 25)%Q.

(** A soil moisture that raises no alert: absent, not a number, or an
    ordinary number from 30 to 60. *)
Definition quietSoil (m : metric) : Prop :=
  m = MUndefined \/ m = MNull \/ m = MNum NaN
  \/ exists v, m = MNum (Fin v) /\ (30 <= v)%Q /\ (v <= 60)%Q.

(** A leaf wetness that raises no alert: absent, not a number, minus
    infinity, or an ordinary number of at most 70. *)
Definition quietLeaf (m : metric) : Prop :=
  m = MUndefined \/ m = MNull \/ m = MNum NaN \/ m = MNum NInf
  \/ exists v, m = MNum (Fin v) /\ (v <= 70)%Q.

(** The values that [parseEcowittCloudData] hands to [parseFloat]: those
    behind a test that succeeds. *)
Definition cloudValues (data : jsval) : list jsval :=
  flat_map
    (fun ab : string * string =>
       if hasValue data ab.1 ab.2 then [valueOf data ab.1 ab.2] else [])
    [("indoor", "temperature"); ("indoor", "humidity");
     ("outdoor", "temperature"); ("outdoor", "humidity");
     ("soil_ch1", "soilmoisture"); ("soil_ch2", "soilmoisture");
     ("leaf_ch1", "leaf_wetness")].

(** The seven values that the cloud normaliser of the earlier revision may
    hand to [parseFloat]. *)
Definition earlierValues (data : jsval) : list jsval :=
  [prop (prop (prop data "outdoor") "temperature") "value";
   prop (prop (prop data "outdoor") "humidity") "value";
   prop (prop (prop data "indoor") "temperature") "value";
   prop (prop (prop data "indoor") "humidity") "value";
   prop (prop (V11.element (prop data "soil_ch") 0) "humidity") "value";
   prop (prop (V11.element (prop data "soil_ch") 1) "humidity") "value";
   prop (prop (V11.element (prop data "leaf_ch") 0) "humidity") "value"].

Ltac split_ifs :=
  repeat match goal with
         | |- context [if ?c then _ else _] => destruct c
         end.

(** * Properties *)

(** ** The sort *)

Lemma StronglySorted_lookup_lt {A : Type} (R : relation A) (s : list A)
    (i j : nat) (x y : A) :
  StronglySorted R s -> (i < j)%nat ->
  s !! i = Some x -> s !! j = Some y -> R x y.
Proof.
  intros Hs Hij Hx Hy.
  rewrite <- (take_drop j s) in Hs.
  eapply StronglySorted_app_1_elem_of; [exact Hs| |].
  - apply elem_of_take. eauto.
  - apply list_elem_of_lookup. exists 0%nat.
    now rewrite lookup_drop, Nat.add_0_r.
Qed.

Section ArraySortFacts.

Context {A : Type}.
Variable comparefn : A -> A -> num.

Lemma countAndMakeRun_perm (l run rest : list A) :
  countAndMakeRun comparefn l = (run, rest) -> run ++ rest ≡ₚ l.
Proof.
  destruct l as [|x0 [|x1 l]]; simpl; intros E; inversion E; subst; clear E.
  - reflexivity.
  - reflexivity.
  - set (n := runTail comparefn _ x1 l).
    change (x0 :: x1 :: take n l) with (take (S (S n)) (x0 :: x1 :: l)).
    change (drop n l) with (drop (S (S n)) (x0 :: x1 :: l)).
    destruct (orderNegative comparefn x1 x0).
    + now rewrite reverse_Permutation, take_drop.
    + now rewrite take_drop.
Qed.

Lemma insertPivot_perm (sorted : list A) (pivot : A) :
  insertPivot comparefn sorted pivot ≡ₚ sorted ++ [pivot].
Proof.
  unfold insertPivot.
  set (i := searchPlace _ _ _ _ _ _).
  rewrite <- Permutation_middle, Permutation_cons_append.
  now rewrite take_drop.
Qed.

Lemma binaryInsertionSort_perm (rest run : list A) :
  binaryInsertionSort comparefn run rest ≡ₚ run ++ rest.
Proof.
  unfold binaryInsertionSort.
  revert run; induction rest as [|x rest IH]; intros run; simpl.
  - now rewrite app_nil_r.
  - rewrite IH, insertPivot_perm, <- app_assoc. reflexivity.
Qed.

(** Whatever the comparator, the sort only rearranges the array. *)
Lemma arraySort_perm (l : list A) : arraySort comparefn l ≡ₚ l.
Proof.
  unfold arraySort.
  destruct (countAndMakeRun comparefn l) as [run rest] eqn:E.
  rewrite binaryInsertionSort_perm. eauto using countAndMakeRun_perm.
Qed.

(** Sortedness needs a comparator that is a consistent order, at least on
    the elements it is given: those are singled out by [P]. *)
Section Consistent.

Variable P : A -> Prop.

Hypothesis asym : forall a b, P a -> P b ->
  orderNegative comparefn a b = true -> orderNegative comparefn b a = false.
Hypothesis trans : forall a b c, P a -> P b -> P c ->
  orderNegative comparefn b a = false ->
  orderNegative comparefn c b = false ->
  orderNegative comparefn c a = false.

Lemma stepRel_false_trans : Transitive (stepRel comparefn P false).
Proof.
  intros a b c (Ha & Hb & Hab) (_ & Hc & Hbc). repeat split; eauto.
Qed.

Lemma Sorted_weaken (R1 R2 : relation A) (l : list A) :
  (forall a b, R1 a b -> R2 a b) -> Sorted R1 l -> Sorted R2 l.
Proof.
  intros HR; induction 1 as [|a l Hs IH Hhd]; constructor; auto.
  destruct Hhd; constructor; auto.
Qed.

Lemma runTail_chain (d : bool) (l : list A) : forall previous,
  P previous -> Forall P l ->
  Sorted (stepRel comparefn P d)
    (previous :: take (runTail comparefn d previous l) l).
Proof.
  induction l as [|x l IH]; intros previous Hp Hl; simpl.
  - repeat constructor.
  - inversion Hl as [|? ? Hx Hl']; subst.
    destruct (Bool.eqb d (orderNegative comparefn x previous)) eqn:E; simpl.
    + apply Bool.eqb_prop in E. constructor; [now apply IH|].
      constructor. repeat split; auto.
    + repeat constructor.
Qed.

Lemma countAndMakeRun_sorted (l run rest : list A) :
  Forall P l -> countAndMakeRun comparefn l = (run, rest) ->
  StronglySorted (stepRel comparefn P false) run.
Proof.
  intros Hl E.
  apply Sorted_StronglySorted; [exact stepRel_false_trans|].
  destruct l as [|x0 [|x1 l]]; simpl in E; inversion E; subst; clear E.
  - constructor.
  - repeat constructor.
  - inversion Hl as [|? ? H0 Hl1]; subst.
    inversion Hl1 as [|? ? H1 Hl2]; subst.
    set (d := orderNegative comparefn x1 x0).
    assert (Hchain : Sorted (stepRel comparefn P d)
              (x0 :: x1 :: take (runTail comparefn d x1 l) l)).
    { constructor; [now apply runTail_chain|].
      constructor. repeat split; auto. }
    destruct d eqn:Ed; [|exact Hchain].
    apply Sorted_reverse in Hchain.
    eapply Sorted_weaken; [|exact Hchain].
    intros a b (Hb & Ha & Hab). repeat split; auto.
Qed.

Lemma sorted_lookup (s : list A) (i j : nat) (x y : A) :
  StronglySorted (stepRel comparefn P false) s -> (i < j)%nat ->
  s !! i = Some x -> s !! j = Some y -> stepRel comparefn P false x y.
Proof. apply StronglySorted_lookup_lt. Qed.

Lemma searchPlace_spec (pivot : A) (s : list A) :
  StronglySorted (stepRel comparefn P false) s -> P pivot -> Forall P s ->
  forall fuel left right,
  (left <= right <= length s)%nat -> (right - left <= fuel)%nat ->
  (forall j x, (j < left)%nat -> s !! j = Some x ->
               orderNegative comparefn pivot x = false) ->
  (forall j x, (right <= j)%nat -> s !! j = Some x ->
               orderNegative comparefn pivot x = true) ->
  let i := searchPlace comparefn fuel pivot s left right in
  (i <= length s)%nat
  /\ (forall j x, (j < i)%nat -> s !! j = Some x ->
                  orderNegative comparefn pivot x = false)
  /\ (forall j x, (i <= j)%nat -> s !! j = Some x ->
                  orderNegative comparefn pivot x = true).
Proof.
  intros Hs Hp HP.
  induction fuel as [|fuel IH]; intros left right Hlr Hfuel Hl Hr;
    cbn [searchPlace].
  - assert (left = right) by lia; subst. repeat split; auto; lia.
  - destruct (left <? right)%nat eqn:Elt.
    2:{ apply Nat.ltb_ge in Elt. assert (left = right) by lia; subst.
        repeat split; auto; lia. }
    apply Nat.ltb_lt in Elt.
    set (mid := (left + (right - left) / 2)%nat).
    assert (Hmid : (left <= mid < right)%nat).
    { pose proof (Nat.div_lt (right - left) 2). unfold mid. lia. }
    destruct (lookup_lt_is_Some_2 s mid) as [x Hx]; [lia|].
    rewrite Hx.
    assert (Px : P x) by (eapply Forall_lookup_1; eauto).
    destruct (orderNegative comparefn pivot x) eqn:Ex.
    + apply IH; [lia|lia|exact Hl|].
      intros j y Hj Hy.
      destruct (decide (j = mid)) as [->|Hne]; [congruence|].
      destruct (sorted_lookup s mid j x y Hs) as (_ & Py & Hxy);
        [lia|auto|auto|].
      destruct (orderNegative comparefn pivot y) eqn:Ey; [reflexivity|].
      rewrite (trans x y pivot Px Py Hp Hxy Ey) in Ex. discriminate.
    + apply IH; [lia|lia| |exact Hr].
      intros j y Hj Hy.
      destruct (decide (j = mid)) as [->|Hne]; [congruence|].
      destruct (sorted_lookup s j mid y x Hs) as (Py & _ & Hyx);
        [lia|auto|auto|].
      exact (trans y x pivot Py Px Hp Hyx Ex).
Qed.

Lemma insertPivot_sorted (s : list A) (pivot : A) :
  StronglySorted (stepRel comparefn P false) s -> Forall P s -> P pivot ->
  StronglySorted (stepRel comparefn P false) (insertPivot comparefn s pivot).
Proof.
  intros Hs HP Hp. unfold insertPivot.
  destruct (searchPlace_spec pivot s Hs Hp HP (length s) 0 (length s))
    as (Hi & Hbefore & Hafter); [lia|lia| | |].
  { intros j x Hj; lia. }
  { intros j x Hj Hx. apply lookup_ge_None_2 in Hj. congruence. }
  set (i := searchPlace _ _ _ _ _ _) in *.
  pose proof Hs as Hs'. rewrite <- (take_drop i s) in Hs'.
  apply StronglySorted_app_2.
  - intros x1 x2 H1 H2.
    apply elem_of_take in H1 as (j & Hj & Hji).
    apply elem_of_cons in H2 as [->|H2].
    + assert (P x1) by (eapply Forall_lookup_1; eauto).
      repeat split; eauto.
    + apply list_elem_of_lookup in H2 as (k & Hk).
      rewrite lookup_drop in Hk.
      eapply (sorted_lookup s j (i + k)); eauto; lia.
  - eapply StronglySorted_app_1_l; exact Hs'.
  - apply StronglySorted_cons; split.
    + apply Forall_lookup_2. intros k y Hk.
      rewrite lookup_drop in Hk.
      assert (Py : P y) by (eapply Forall_lookup_1; eauto).
      repeat split; auto.
      apply asym; auto. eapply Hafter; [|exact Hk]. lia.
    + eapply StronglySorted_app_1_r; exact Hs'.
Qed.

Lemma binaryInsertionSort_sorted (rest : list A) : forall run,
  StronglySorted (stepRel comparefn P false) run ->
  Forall P run -> Forall P rest ->
  StronglySorted (stepRel comparefn P false)
    (binaryInsertionSort comparefn run rest).
Proof.
  unfold binaryInsertionSort.
  induction rest as [|x rest IH]; intros run Hs HP Hrest; simpl; [auto|].
  inversion Hrest as [|? ? Hx Hrest']; subst.
  apply IH; [now apply insertPivot_sorted| |auto].
  rewrite insertPivot_perm. apply Forall_app; auto.
Qed.

(** On elements it orders consistently, the sort returns them in
    ascending order. *)
Lemma arraySort_sorted (l : list A) :
  Forall P l ->
  StronglySorted (stepRel comparefn P false) (arraySort comparefn l).
Proof.
  intros HP. unfold arraySort.
  destruct (countAndMakeRun comparefn l) as [run rest] eqn:E.
  pose proof (countAndMakeRun_perm _ _ _ E) as Hperm.
  pose proof (countAndMakeRun_sorted _ _ _ HP E) as Hsorted.
  rewrite <- Hperm in HP. apply Forall_app in HP as [Hrun Hrest].
  apply binaryInsertionSort_sorted; auto.
Qed.

End Consistent.

End ArraySortFacts.

(** ** Statistics *)

Lemma orderNegative_finite (a b : Q) :
  orderNegative byDifference (finite a) (finite b) = true <-> (a < b)%Q.
Proof.
  unfold orderNegative, byDifference, finite, Num.sub, Num.ltb; simpl.
  assert (E : (Qred (a + Qred (- b)) ?= inject_Z 0)%Q = (a - b ?= 0)%Q).
  { apply Qcompare_comp; [|reflexivity].
    now rewrite !Qred_correct. }
  rewrite E. destruct (a - b ?= 0)%Q eqn:C.
  - apply Qeq_alt in C. split; [discriminate|lra].
  - apply Qlt_alt in C. split; [lra|reflexivity].
  - apply Qgt_alt in C. split; [discriminate|lra].
Qed.

Lemma orderNegative_finite_false (a b : Q) :
  orderNegative byDifference (finite a) (finite b) = false <-> (b <= a)%Q.
Proof.
  pose proof (orderNegative_finite a b) as H.
  destruct (orderNegative byDifference (finite a) (finite b)).
  - split; [discriminate|]. intros Hle. apply proj1 in H.
    specialize (H eq_refl). lra.
  - split; [|reflexivity]. intros _.
    destruct (Qlt_le_dec a b) as [Hlt|Hle]; [|exact Hle].
    apply H in Hlt. discriminate.
Qed.

Lemma StronglySorted_fmap_inv {A B : Type} (f : A -> B)
    (R1 : relation A) (R2 : relation B) (l : list A) :
  (forall x y, R2 (f x) (f y) -> R1 x y) ->
  StronglySorted R2 (map f l) -> StronglySorted R1 l.
Proof.
  intros HR. induction l as [|x l IH]; simpl; intros Hs; [constructor|].
  apply StronglySorted_cons in Hs as [Hhd Htl].
  constructor; [auto|].
  apply Forall_forall. intros y Hy.
  apply HR. rewrite Forall_forall in Hhd. apply Hhd.
  apply list_elem_of_In in Hy. apply list_elem_of_In.
  now apply in_map.
Qed.

Lemma filter_defined_finite (qs : list Q) :
  filter (fun m => isUndefined m = false) (map finite qs) = map finite qs.
Proof.
  induction qs as [|q qs IH]; [reflexivity|].
  simpl. rewrite filter_cons_True by reflexivity. now f_equal.
Qed.

Lemma filter_undefined_finite (qs : list Q) :
  filter (fun m => isUndefined m = true) (map finite qs) = [].
Proof.
  induction qs as [|q qs IH]; [reflexivity|].
  simpl. rewrite filter_cons_False by discriminate. exact IH.
Qed.

(** On ordinary numbers [values.sort((a, b) => a - b)] is the ascending
    rearrangement. *)
Lemma sortValues_finite (qs : list Q) :
  exists s, sortValues (map finite qs) = map finite s
            /\ s ≡ₚ qs /\ StronglySorted Qle s.
Proof.
  unfold sortValues.
  rewrite filter_defined_finite, filter_undefined_finite, app_nil_r.
  pose proof (arraySort_perm byDifference (map finite qs)) as Hperm.
  destruct (Permutation_map_inv finite _ Hperm) as (s & Es & Hs).
  exists s. split; [exact Es|]. split; [now symmetry|].
  assert (HP : Forall isFiniteValue (map finite qs)).
  { apply Forall_forall. intros m Hm. rewrite list_elem_of_In in Hm.
    apply in_map_iff in Hm as (q & <- & _). now exists q. }
  eapply (StronglySorted_fmap_inv finite); [|rewrite <- Es;
    apply (arraySort_sorted byDifference isFiniteValue); [| |exact HP]].
  - intros x y (_ & _ & H). now apply orderNegative_finite_false in H.
  - intros a b (x & ->) (y & ->) H.
    apply orderNegative_finite in H. apply orderNegative_finite_false. lra.
  - intros a b c (x & ->) (y & ->) (z & ->) H1 H2.
    apply orderNegative_finite_false in H1, H2.
    apply orderNegative_finite_false. lra.
Qed.

(** Two ascending arrangements of the same numbers hold equal numbers at
    every index. *)
Lemma ascending_unique (s1 s2 : list Q) :
  StronglySorted Qle s1 -> StronglySorted Qle s2 -> s1 ≡ₚ s2 ->
  Qred <$> s1 = Qred <$> s2.
Proof.
  intros H1 H2 Hperm.
  apply (StronglySorted_unique_strong Qle).
  - intros x1 x2 Hx1 Hx2 H12 H21.
    apply list_elem_of_fmap in Hx1 as (a & -> & _).
    apply list_elem_of_fmap in Hx2 as (b & -> & _).
    rewrite <- (Qred_involutive a), <- (Qred_involutive b).
    apply Qred_complete. now apply Qle_antisym.
  - eapply StronglySorted_fmap; [|exact H1].
    intros x y Hxy. now rewrite !Qred_correct.
  - eapply StronglySorted_fmap; [|exact H2].
    intros x y Hxy. now rewrite !Qred_correct.
  - now apply fmap_Permutation.
Qed.

Lemma ascending_lookup (s1 s2 : list Q) (i : nat) (x : Q) :
  StronglySorted Qle s1 -> StronglySorted Qle s2 -> s1 ≡ₚ s2 ->
  s1 !! i = Some x -> exists y, s2 !! i = Some y /\ (y == x)%Q.
Proof.
  intros H1 H2 Hperm Hx.
  pose proof (ascending_unique s1 s2 H1 H2 Hperm) as E.
  apply (f_equal (fun l => l !! i)) in E.
  rewrite !list_lookup_fmap, Hx in E. cbn in E.
  destruct (s2 !! i) as [y|]; [|discriminate].
  exists y. split; [reflexivity|].
  cbn in E. injection E as E.
  now rewrite <- (Qred_correct y), <- (Qred_correct x), E.
Qed.

Lemma at_finite (s : list Q) (i : nat) (q : Q) :
  s !! i = Some q -> at_ (map finite s) i = finite q.
Proof.
  intros H. unfold at_.
  change (map finite s) with (finite <$> s).
  now rewrite list_lookup_fmap, H.
Qed.

(** C1, as amended: for every even number 2k > 0 of ordinary values, the
    median that [calculateStats] returns is the element at index k of the
    ascending rearrangement of the values, that is the upper of the two
    middle values (the lower one sits at index k - 1); every ascending
    arrangement of the values holds that number at index k. *)
Theorem calculateStats_median_even (qs : list Q) (k : nat) :
  length qs = (2 * k)%nat -> (0 < k)%nat ->
  exists st s lo hi,
    calculateStats (map finite qs) = Some st
    /\ s ≡ₚ qs /\ StronglySorted Qle s
    /\ s !! (k - 1)%nat = Some lo /\ s !! k = Some hi
    /\ (lo <= hi)%Q
    /\ median st = finite hi
    /\ (forall s', s' ≡ₚ qs -> StronglySorted Qle s' ->
          exists hi', s' !! k = Some hi' /\ (hi' == hi)%Q).
Proof.
  intros Hlen Hk.
  destruct (sortValues_finite qs) as (s & Es & Hperm & Hsorted).
  assert (Hs : length s = (2 * k)%nat) by now rewrite Hperm.
  destruct (lookup_lt_is_Some_2 s (k - 1)) as [lo Hlo]; [lia|].
  destruct (lookup_lt_is_Some_2 s k) as [hi Hhi]; [lia|].
  unfold calculateStats. rewrite length_map, Hlen.
  destruct (2 * k)%nat as [|n] eqn:E; [lia|].
  eexists _, s, lo, hi. split; [reflexivity|].
  split; [exact Hperm|]. split; [exact Hsorted|].
  split; [exact Hlo|]. split; [exact Hhi|].
  split; [|split].
  - eapply (StronglySorted_lookup_lt Qle s (k - 1) k); eauto. lia.
  - cbn [median]. rewrite Es, length_map, Hs, <- E.
    replace (2 * k / 2)%nat with k
      by (now rewrite Nat.mul_comm, Nat.div_mul).
    now apply at_finite.
  - intros s' Hperm' Hsorted'.
    apply (ascending_lookup s s' k hi Hsorted Hsorted'); [|exact Hhi].
    now rewrite Hperm, Hperm'.
Qed.

Lemma calculateStats_median_even_witness :
  length [10%Q; 20%Q; 30%Q; 40%Q] = (2 * 2)%nat /\ (0 < 2)%nat
  /\ exists st s lo hi,
       calculateStats (map finite [10%Q; 20%Q; 30%Q; 40%Q]) = Some st
       /\ s ≡ₚ [10%Q; 20%Q; 30%Q; 40%Q] /\ StronglySorted Qle s
       /\ s !! (2 - 1)%nat = Some lo /\ s !! 2%nat = Some hi
       /\ (lo <= hi)%Q
       /\ median st = finite hi
       /\ (forall s', s' ≡ₚ [10%Q; 20%Q; 30%Q; 40%Q] ->
             StronglySorted Qle s' ->
             exists hi', s' !! 2%nat = Some hi' /\ (hi' == hi)%Q).
Proof.
  split; [reflexivity|]. split; [lia|].
  apply (calculateStats_median_even [10%Q; 20%Q; 30%Q; 40%Q] 2);
    [reflexivity|lia].
Defined.

(** C1 as stated fails: on the values 10, 20, 30, 40 the median returned
    is 30, the upper middle value, and not 20. *)
Lemma calculateStats_median_four_not_lower :
  median <$> calculateStats (map finite [10%Q; 20%Q; 30%Q; 40%Q])
    = Some (finite 30)
  /\ median <$> calculateStats (map finite [10%Q; 20%Q; 30%Q; 40%Q])
    <> Some (finite 20).
Proof.
  assert (E : median <$> calculateStats (map finite [10%Q; 20%Q; 30%Q; 40%Q])
              = Some (finite 30)) by (vm_compute; reflexivity).
  split; [exact E|]. rewrite E. discriminate.
Qed.

(** ** The store *)

Lemma pushReading_sensorData (r : reading) (st : state) :
  sensorData (snd (pushReading r st)) =
    if (MAX_READINGS <? length (sensorData st ++ [r]))%nat
    then tail (sensorData st ++ [r])
    else sensorData st ++ [r].
Proof.
  unfold pushReading, mbind, M_bind, getSensorData, setSensorData.
  destruct (MAX_READINGS <? length (sensorData st ++ [r]))%nat; reflexivity.
Qed.

Lemma pushReading_lastRawData (r : reading) (st : state) :
  lastRawData (snd (pushReading r st)) = lastRawData st.
Proof.
  unfold pushReading, mbind, M_bind, getSensorData, setSensorData.
  destruct (MAX_READINGS <? length (sensorData st ++ [r]))%nat; reflexivity.
Qed.

Lemma pushReading_drop (r : reading) (st : state) :
  (length (sensorData st) <= MAX_READINGS)%nat ->
  sensorData (snd (pushReading r st)) =
    drop (length (sensorData st ++ [r]) - MAX_READINGS) (sensorData st ++ [r]).
Proof.
  intros Hle. rewrite pushReading_sensorData.
  rewrite length_app in *. cbn [length] in *.
  destruct (MAX_READINGS <? length (sensorData st) + 1)%nat eqn:E.
  - apply Nat.ltb_lt in E.
    replace (length (sensorData st) + 1 - MAX_READINGS)%nat with 1%nat by lia.
    now destruct (sensorData st ++ [r]).
  - apply Nat.ltb_ge in E.
    now replace (length (sensorData st) + 1 - MAX_READINGS)%nat
      with 0%nat by lia.
Qed.

Lemma pushReading_bounded (r : reading) (st : state) :
  (length (sensorData st) <= MAX_READINGS)%nat ->
  (length (sensorData (snd (pushReading r st))) <= MAX_READINGS)%nat.
Proof.
  intros Hle. rewrite pushReading_drop by exact Hle.
  rewrite length_drop, length_app. cbn [length]. lia.
Qed.

Lemma pushAll_drop (rs : list reading) : forall st,
  (length (sensorData st) <= MAX_READINGS)%nat ->
  sensorData (pushAll rs st) =
    drop (length (sensorData st ++ rs) - MAX_READINGS) (sensorData st ++ rs).
Proof.
  induction rs as [|r rs IH]; intros st Hle; cbn [pushAll fold_left].
  - rewrite app_nil_r.
    now replace (length (sensorData st) - MAX_READINGS)%nat with 0%nat by lia.
  - fold (pushAll rs (snd (pushReading r st))).
    rewrite IH by now apply pushReading_bounded.
    rewrite pushReading_drop by exact Hle.
    set (d := (length (sensorData st ++ [r]) - MAX_READINGS)%nat).
    assert (Hd : (d <= length (sensorData st ++ [r]))%nat) by (unfold d; lia).
    rewrite <- drop_app_le by exact Hd.
    rewrite <- app_assoc. cbn [app].
    rewrite drop_drop. f_equal.
    rewrite length_drop.
    assert (length (sensorData st ++ [r]) = S (length (sensorData st)))
      by (rewrite length_app; cbn [length]; lia).
    assert (length (sensorData st ++ r :: rs)
            = (S (length (sensorData st)) + length rs)%nat)
      by (rewrite length_app; cbn [length]; lia).
    unfold d. lia.
Qed.

Lemma pushAll_snoc (rs : list reading) (r : reading) (st : state) :
  pushAll (rs ++ [r]) st = snd (pushReading r (pushAll rs st)).
Proof. unfold pushAll. now rewrite fold_left_app. Qed.

Lemma postEcowitt_unfold (now : Z) (body : jsval) (st : state) :
  postEcowitt now body st =
    let st1 := {| sensorData := sensorData st;
                  lastRawData := Some (mkRaw now None body) |} in
    match parseEcowittData now body with
    | Some parsed =>
        if hasSensorData parsed
        then ((200%nat, "success"), snd (pushReading parsed st1))
        else ((200%nat, "success"), st1)
    | None => ((500%nat, "error"), st1)
    end.
Proof.
  unfold postEcowitt, mbind, M_bind, setLastRawData, mret, M_ret.
  destruct (parseEcowittData now body) as [parsed|]; [|reflexivity].
  destruct (hasSensorData parsed); [|reflexivity].
  now destruct (pushReading parsed _).
Qed.

Lemma runRead_state (now : Z) (op : readOp) (st : state) :
  snd (runRead now op st) = st.
Proof.
  destruct op; unfold runRead, getLatest, getStats, getAlerts, mbind, M_bind,
    getSensorData, mret, M_ret.
  - now destruct (lastReading (sensorData st)).
  - now destruct (filter _ (sensorData st)).
  - now destruct (lastReading (sensorData st)).
Qed.

Lemma ingestCloud_unfold (now : Z) (data : jsval) (st : state) :
  ingestCloud now data st = (tt, st)
  \/ (exists parsed,
        parseEcowittCloudData now (prop data "data") = Some parsed
        /\ ingestCloud now data st =
             pushReading parsed
               {| sensorData := sensorData st;
                  lastRawData :=
                    Some (mkRaw now (Some "ecowitt-cloud")
                            (prop data "data")) |})
  \/ ingestCloud now data st =
       (tt, {| sensorData := sensorData st;
               lastRawData :=
                 Some (mkRaw now (Some "ecowitt-cloud") (prop data "data")) |}).
Proof.
  unfold ingestCloud, mbind, M_bind, setLastRawData, mret, M_ret.
  destruct data; auto;
    destruct (isZero _ && truthy _); auto;
    destruct (parseEcowittCloudData now _) as [parsed|]; auto;
    destruct (hasSensorData parsed); eauto.
Qed.

(** Every handler keeps the store within its capacity. *)
Lemma handle_bounded (req : request) (st : state) :
  bounded st -> bounded (handle req st).
Proof.
  unfold bounded. intros Hb.
  destruct req as [t body|t data|t l h|t op]; cbn [handle].
  - rewrite postEcowitt_unfold. cbn zeta.
    destruct (parseEcowittData t body) as [parsed|]; [|exact Hb].
    destruct (hasSensorData parsed); [|exact Hb].
    cbn [snd]. now apply pushReading_bounded.
  - destruct (ingestCloud_unfold t data st) as [-> | [(p & _ & ->) | ->]];
      [exact Hb| |exact Hb].
    now apply pushReading_bounded.
  - exact Hb.
  - now rewrite runRead_state.
Qed.

Lemma serve_bounded (reqs : list request) : bounded (serve reqs).
Proof.
  unfold serve.
  assert (H : forall st, bounded st ->
            bounded (fold_left (fun st req => handle req st) reqs st)).
  { induction reqs as [|req reqs IH]; intros st Hst; cbn [fold_left];
      [exact Hst|]. apply IH. now apply handle_bounded. }
  apply H. unfold bounded. cbn [sensorData initialState length]. lia.
Qed.

(** C5: after more appends than the capacity, starting from the empty
    store, the store holds exactly [MAX_READINGS] readings, namely the most
    recent ones in insertion order; after every append along the way the
    size is at most the capacity; once [MAX_READINGS] readings have been
    appended each further append drops the oldest stored reading and puts
    the new one last; and whatever requests the server has handled since
    start-up, its store holds at most [MAX_READINGS] readings. *)
Theorem store_keeps_most_recent (rs : list reading) :
  (MAX_READINGS < length rs)%nat ->
  length (sensorData (pushAll rs initialState)) = MAX_READINGS
  /\ sensorData (pushAll rs initialState)
      = drop (length rs - MAX_READINGS) rs
  /\ (forall n,
        (length (sensorData (pushAll (take n rs) initialState))
         <= MAX_READINGS)%nat)
  /\ (forall n r, rs !! n = Some r -> (MAX_READINGS <= n)%nat ->
        sensorData (pushAll (take (S n) rs) initialState)
        = tail (sensorData (pushAll (take n rs) initialState)) ++ [r])
  /\ (forall reqs, bounded (serve reqs)).
Proof.
  intros HN.
  assert (H0 : (length (sensorData initialState) <= MAX_READINGS)%nat)
    by (cbn [sensorData initialState length]; lia).
  assert (Hall : forall l, sensorData (pushAll l initialState)
                           = drop (length l - MAX_READINGS) l).
  { intros l. now rewrite pushAll_drop by exact H0. }
  split; [|split; [|split; [|split; [|exact serve_bounded]]]].
  - rewrite Hall, length_drop. lia.
  - apply Hall.
  - intros n. rewrite Hall, length_drop. lia.
  - intros n r Hr Hn.
    rewrite (take_S_r rs n r Hr), pushAll_snoc, pushReading_sensorData.
    assert (Hlen : length (take n rs) = n).
    { apply length_take_le. apply lookup_lt_Some in Hr. lia. }
    rewrite Hall, length_app, length_drop, Hlen. cbn [length].
    assert (0 < MAX_READINGS)%nat by (apply Nat.ltb_lt; reflexivity).
    replace (MAX_READINGS <? n - (n - MAX_READINGS) + 1)%nat with true
      by (symmetry; apply Nat.ltb_lt; lia).
    destruct (drop (n - MAX_READINGS) (take n rs)) eqn:E; [|reflexivity].
    apply (f_equal length) in E. rewrite length_drop, Hlen in E.
    cbn [length] in E. lia.
Qed.

#[warnings="-abstract-large-number"]
Lemma store_keeps_most_recent_witness :
  let r := mkReading 0 JNull (Some (ofZ 20)) None MNull MNull MNull
             JUndefined JUndefined JUndefined in
  let rs := replicate 10001 r in
  (MAX_READINGS <? length rs)%nat = true
  /\ length (sensorData (pushAll rs initialState)) = MAX_READINGS
  /\ sensorData (pushAll rs initialState) = drop (length rs - MAX_READINGS) rs.
Proof.
  intros r rs.
  assert (HN : (MAX_READINGS <? length rs)%nat = true)
    by (vm_compute; reflexivity).
  split; [exact HN|].
  destruct (store_keeps_most_recent rs) as (H1 & H2 & _).
  - apply Nat.ltb_lt. exact HN.
  - split; assumption.
Defined.

(** ** Flat normaliser *)

(** A reading comes out of the flat normaliser exactly when the payload is
    an object and no call of [parseFloat] throws, and it is then the object
    that the function builds. *)
Lemma parseEcowittData_Some (now : Z) (data : jsval) (parsed : reading) :
  parseEcowittData now data = Some parsed ->
  data <> JUndefined /\ data <> JNull
  /\ existsb toStringThrows (parseFloatArguments data) = false
  /\ parsed =
       {| timestamp := now;
          raw := data;
          temperature := flatTemperature data;
          humidity := flatHumidity data;
          soilMoisture1 := firstTruthy data ["soilmoisture1"; "soilhum1"];
          soilMoisture2 := firstTruthy data ["soilmoisture2"; "soilhum2"];
          leafWetness :=
            firstTruthy data
              ["leafwetness_ch1"; "leafwetness1"; "leafwet_ch1"];
          stationtype := jsOr (prop data "stationtype") (JStr "Unknown");
          passkey :=
            jsOr (jsOr (jsOr (prop data "PASSKEY") (prop data "passkey"))
                       (prop data "ID"))
                 (JStr "Unknown");
          dateutc := prop data "dateutc" |}.
Proof.
  unfold parseEcowittData.
  destruct data; try discriminate;
    (destruct (existsb toStringThrows _) eqn:Et; [discriminate|]);
    intros [= <-]; repeat split; discriminate.
Qed.

Lemma parseEcowittData_complete (now : Z) (data : jsval) :
  data <> JUndefined -> data <> JNull ->
  existsb toStringThrows (parseFloatArguments data) = false ->
  exists parsed, parseEcowittData now data = Some parsed.
Proof.
  intros Hu Hn Et. unfold parseEcowittData.
  destruct data; try congruence; rewrite Et; eauto.
Qed.

Lemma parseEcowittData_throws (now : Z) (data : jsval) :
  existsb toStringThrows (parseFloatArguments data) = true ->
  parseEcowittData now data = None.
Proof.
  intros Et. unfold parseEcowittData.
  destruct data; try reflexivity; now rewrite Et.
Qed.

Lemma parseEcowittData_temperature (now : Z) (data : jsval) (parsed : reading) :
  parseEcowittData now data = Some parsed ->
  temperature parsed = flatTemperature data.
Proof.
  intros E. apply parseEcowittData_Some in E as (_ & _ & _ & ->).
  reflexivity.
Qed.



(** C6 as stated fails for a field that is present with the number 0: the
    payload {tempf: 0, temp: "20"} has a tempf, whose conversion would be
    -160/9, but the temperature of the reading is 20, taken from temp. *)
Lemma flat_temperature_zero_passed_over :
  let data : jsval :=
    JObj {[ "tempf" := JNum (ofZ 0); "temp" := JStr "20" ]} in
  prop data "tempf" = JNum (ofZ 0)
  /\ fahrenheitToCelsius (prop data "tempf") = binary64 (-160 # 9)
  /\ temperature <$> parseEcowittData 0 data = Some (Some (ofZ 20))
  /\ temperature <$> parseEcowittData 0 data
     <> Some (Some (fahrenheitToCelsius (prop data "tempf"))).
Proof.
  intros data.
  assert (E : temperature <$> parseEcowittData 0 data = Some (Some (ofZ 20)))
    by (vm_compute; reflexivity).
  split; [vm_compute; reflexivity|].
  split; [vm_compute; reflexivity|].
  split; [exact E|].
  rewrite E. vm_compute. discriminate.
Qed.

(** ** Cloud normaliser *)

(** [toFixed1] returns the binary64 number nearest to a number of tenths
    that is at most one twentieth away. *)
Lemma toFixed1_tenths (q : Q) :
  (Qabs q < inject_Z (10 ^ 21))%Q ->
  exists n : Z, toFixed1 (Fin q) = binary64 (n # 10)
                /\ (Qabs (q - (n # 10)) <= 1 # 20)%Q.
Proof.
  intros Hsmall. unfold toFixed1.
  destruct (Qle_bool (inject_Z (10 ^ 21)) (Qabs q)) eqn:E.
  { apply Qle_bool_iff in E. destruct (Qlt_not_le _ _ Hsmall E). }
  clear E Hsmall.
  set (m := Qfloor (Qabs q * inject_Z 10 + (1 # 2))).
  exists (Z.sgn (Qnum q) * m)%Z. split; [reflexivity|].
  pose proof (Qfloor_le (Qabs q * inject_Z 10 + (1 # 2))) as Hlo.
  pose proof (Qlt_floor (Qabs q * inject_Z 10 + (1 # 2))) as Hhi.
  fold m in Hlo, Hhi.
  rewrite inject_Z_plus in Hhi.
  change (inject_Z 10) with 10%Q in *. change (inject_Z 1) with 1%Q in *.
  assert (Em : forall z : Z, ((z # 10) == inject_Z z * (1 # 10))%Q).
  { intros z. unfold Qeq, inject_Z. cbn [Qnum Qden Qmult]. lia. }
  rewrite Em.
  assert (Hcases :
    (q == 0 /\ Z.sgn (Qnum q) = 0%Z /\ Qabs q == 0)%Q
    \/ (0 < q /\ Z.sgn (Qnum q) = 1%Z /\ Qabs q == q)%Q
    \/ (q < 0 /\ Z.sgn (Qnum q) = (-1)%Z /\ Qabs q == - q)%Q).
  { destruct q as [[|p|p] d]; [left|right; left|right; right];
      repeat split; reflexivity. }
  set (M := inject_Z m) in *. set (a := Qabs q) in *.
  destruct Hcases as [(Hq & -> & Ha)|[(Hq & -> & Ha)|(Hq & -> & Ha)]].
  - rewrite Z.mul_0_l. change (inject_Z 0) with 0%Q.
    clearbody M; clearbody m; clearbody a.
    apply Qabs_Qle_condition. split; lra.
  - rewrite Z.mul_1_l. fold M.
    clearbody M; clearbody m; clearbody a.
    apply Qabs_Qle_condition. split; lra.
  - replace (-1 * m)%Z with (- m)%Z by lia. rewrite inject_Z_opp. fold M.
    clearbody M; clearbody m; clearbody a.
    apply Qabs_Qle_condition. split; lra.
Qed.

Lemma assign_Some (c : bool) (set : num -> reading -> reading) (v : jsval)
    (p p' : reading) :
  assign c set v p = Some p' ->
  p' = when c (set (parseFloat v)) p.
Proof.
  unfold assign, when. destruct c; [|now intros [= <-]].
  destruct (toStringThrows v); [discriminate|now intros [= <-]].
Qed.

Ltac assign_steps :=
  repeat match goal with
         | |- context [assign (hasValue ?d ?a ?b) _ ?v _] =>
             destruct (hasValue d a b) eqn:?; cbn [assign];
             [destruct (toStringThrows v) eqn:?|];
             cbn [mbind option_bind existsb flat_map app fst snd orb]
         end.

(** A reading comes out of the cloud normaliser exactly when none of the
    values that it hands to [parseFloat] throws. *)
Lemma parseEcowittCloudData_None (now : Z) (data : jsval) :
  parseEcowittCloudData now data = None
  <-> existsb toStringThrows (cloudValues data) = true.
Proof.
  unfold parseEcowittCloudData, cloudValues. cbn zeta.
  cbn [flat_map fst snd].
  assign_steps;
    repeat match goal with
           | H : toStringThrows _ = _ |- _ => rewrite ?H; clear H
           end;
    cbn [existsb app orb]; rewrite ?orb_true_r;
    split; intros H; first [reflexivity|discriminate H].
Qed.

(** The reading that comes out of the cloud normaliser is built by the
    assignments whose tests succeed, in the order of the code. *)
Lemma parseEcowittCloudData_Some (now : Z) (data : jsval) (parsed : reading) :
  parseEcowittCloudData now data = Some parsed ->
  parsed =
    when (hasValue data "leaf_ch1" "leaf_wetness")
      (setLeafWetness
         (toFixed1 (parseFloat (valueOf data "leaf_ch1" "leaf_wetness"))))
    (when (hasValue data "soil_ch2" "soilmoisture")
      (setSoilMoisture2
         (toFixed1 (parseFloat (valueOf data "soil_ch2" "soilmoisture"))))
    (when (hasValue data "soil_ch1" "soilmoisture")
      (setSoilMoisture1
         (toFixed1 (parseFloat (valueOf data "soil_ch1" "soilmoisture"))))
    (when (hasValue data "outdoor" "humidity")
      (setHumidity (parseFloat (valueOf data "outdoor" "humidity")))
    (when (hasValue data "outdoor" "temperature")
      (setTemperature
         (toFixed1 (parseFloat (valueOf data "outdoor" "temperature"))))
    (when (hasValue data "indoor" "humidity")
      (setHumidity (parseFloat (valueOf data "indoor" "humidity")))
    (when (hasValue data "indoor" "temperature")
      (setTemperature
         (toFixed1 (parseFloat (valueOf data "indoor" "temperature"))))
      {| timestamp := now; raw := data;
         temperature := None; humidity := None;
         soilMoisture1 := MUndefined; soilMoisture2 := MUndefined;
         leafWetness := MUndefined;
         stationtype := JUndefined; passkey := JUndefined;
         dateutc := JUndefined |})))))).
Proof.
  unfold parseEcowittCloudData. cbn zeta. intros E.
  repeat match type of E with
         | mbind _ ?c = Some _ =>
             let p := fresh "p" in
             let Ep := fresh "Ep" in
             destruct c as [p|] eqn:Ep; [|discriminate E];
             cbn [mbind option_bind] in E;
             apply assign_Some in Ep; subst p
         end.
  now apply assign_Some in E.
Qed.

Ltac cloud_fields E :=
  rewrite (parseEcowittCloudData_Some _ _ _ E); unfold when;
  repeat match goal with
         | |- context [hasValue ?d ?a ?b] =>
             destruct (hasValue d a b); cbn [temperature soilMoisture1
               soilMoisture2 leafWetness timestamp raw setTemperature
               setHumidity setSoilMoisture1 setSoilMoisture2 setLeafWetness]
         end; reflexivity.

Lemma parseEcowittCloudData_temperature (now : Z) (data : jsval)
    (parsed : reading) :
  parseEcowittCloudData now data = Some parsed ->
  temperature parsed =
    if hasValue data "outdoor" "temperature" then
      Some (toFixed1 (parseFloat (valueOf data "outdoor" "temperature")))
    else if hasValue data "indoor" "temperature" then
      Some (toFixed1 (parseFloat (valueOf data "indoor" "temperature")))
    else None.
Proof. intros E. cloud_fields E. Qed.

(** *** The earlier revision *)

Lemma assign_total (c : bool) (set : num -> reading -> reading) (v : jsval)
    (p : reading) :
  toStringThrows v = false ->
  assign c set v p = Some (when c (set (parseFloat v)) p).
Proof. intros E. unfold assign, when. rewrite E. now destruct c. Qed.

Lemma V11_soilEntry_inv (P : reading -> Prop)
    (set : num -> reading -> reading) (entry : option jsval)
    (p p' : reading) :
  (forall x r, P r -> P (set x r)) ->
  P p ->
  V11.soilEntry set entry p = Some p' ->
  P p'.
Proof.
  intros Hset Hp. unfold V11.soilEntry.
  destruct entry as [sensor|]; [|intros [= <-]; auto].
  destruct (V11.sensorHumidity sensor) as [h|]; cbn [mbind option_bind];
    [|discriminate].
  intros E. apply assign_Some in E as ->. unfold when.
  destruct (truthy h); auto.
Qed.

Lemma V11_soilChannels_inv (P : reading -> Prop) (data : jsval)
    (p p' : reading) :
  (forall x r, P r -> P (setSoilMoisture1 x r)) ->
  (forall x r, P r -> P (setSoilMoisture2 x r)) ->
  P p ->
  V11.soilChannels data p = Some p' ->
  P p'.
Proof.
  intros H1 H2 Hp. unfold V11.soilChannels.
  destruct (truthy (prop data "soil_ch") && V11.isArray (prop data "soil_ch"));
    [|intros [= <-]; auto].
  destruct (prop data "soil_ch") as [| | | | |l|]; try (intros [= <-]; auto).
  destruct (V11.soilEntry setSoilMoisture1 (l !! 0%nat) p) as [p1|] eqn:E1;
    [|discriminate].
  intros E2.
  eapply V11_soilEntry_inv in E1; [|exact H1|exact Hp].
  eapply V11_soilEntry_inv in E2; [exact E2|exact H2|exact E1].
Qed.

Lemma V11_soilEntry_null (set : num -> reading -> reading)
    (entry : option jsval) (p : reading) :
  entry = Some JNull \/ entry = Some JUndefined ->
  V11.soilEntry set entry p = None.
Proof. intros [->| ->]; reflexivity. Qed.

(** A null among the first two entries of soil_ch makes the loop over the
    soil channels throw. *)
Lemma V11_soilChannels_null (data : jsval) (p : reading) (l : list jsval)
    (i : nat) :
  prop data "soil_ch" = JArr l -> (i < 2)%nat ->
  l !! i = Some JNull \/ l !! i = Some JUndefined ->
  V11.soilChannels data p = None.
Proof.
  intros El Hi H. unfold V11.soilChannels. rewrite El.
  cbn [truthy V11.isArray andb].
  destruct (V11.soilEntry setSoilMoisture1 (l !! 0%nat) p) as [p1|] eqn:E1;
    [|reflexivity].
  destruct i as [|[|i]]; [|now apply V11_soilEntry_null|lia].
  rewrite (V11_soilEntry_null setSoilMoisture1 _ p H) in E1. discriminate E1.
Qed.

Lemma V11_soilEntry_total (set : num -> reading -> reading)
    (l : list jsval) (i : nat) (p : reading) :
  l !! i <> Some JNull -> l !! i <> Some JUndefined ->
  toStringThrows
    (prop (prop (V11.element (JArr l) i) "humidity") "value") = false ->
  exists p', V11.soilEntry set (l !! i) p = Some p'.
Proof.
  intros Hn Hu Ht. unfold V11.soilEntry. cbn [V11.element] in Ht.
  destruct (l !! i) as [sensor|]; [|eauto]. cbn [default] in Ht.
  destruct sensor; try congruence; cbn [V11.sensorHumidity mbind option_bind];
    rewrite (assign_total _ _ _ _ Ht); eauto.
Qed.

Ltac V11_steps E :=
  repeat match type of E with
         | mbind _ ?c = Some _ =>
             let p := fresh "p" in
             let Ep := fresh "Ep" in
             destruct c as [p|] eqn:Ep; [|discriminate E];
             cbn [mbind option_bind] in E
         end.

Lemma V11_parse_fields (now : Z) (data : jsval) (parsed : reading) :
  V11.parseEcowittCloudData now data = Some parsed ->
  timestamp parsed = now /\ raw parsed = data
  /\ hasSensorData parsed = true.
Proof.
  unfold V11.parseEcowittCloudData. cbn zeta. intros E. V11_steps E.
  set (P := fun r => timestamp r = now /\ raw r = data
                     /\ notNull (soilMoisture1 r) = true).
  assert (Hset : forall c set v r r',
            (forall x r, P r -> P (set x r)) ->
            P r -> assign c set v r = Some r' -> P r').
  { intros c set v r r' Hs Hr Ea. apply assign_Some in Ea as ->.
    unfold when. destruct c; auto. }
  assert (HT : forall x r, P r -> P (setTemperature x r))
    by (intros x r (? & ? & ?); destruct r; repeat split; assumption).
  assert (HH : forall x r, P r -> P (setHumidity x r))
    by (intros x r (? & ? & ?); destruct r; repeat split; assumption).
  assert (H1 : forall x r, P r -> P (setSoilMoisture1 x r))
    by (intros x r (? & ? & ?); destruct r; repeat split; assumption).
  assert (H2 : forall x r, P r -> P (setSoilMoisture2 x r))
    by (intros x r (? & ? & ?); destruct r; repeat split; assumption).
  assert (HL : forall x r, P r -> P (setLeafWetness x r))
    by (intros x r (? & ? & ?); destruct r; repeat split; assumption).
  apply (Hset _ _ _ _ _ HT) in Ep; [|repeat split; reflexivity].
  apply (Hset _ _ _ _ _ HH) in Ep0; [|exact Ep].
  apply (Hset _ _ _ _ _ HT) in Ep1; [|exact Ep0].
  apply (Hset _ _ _ _ _ HH) in Ep2; [|exact Ep1].
  apply (V11_soilChannels_inv P _ _ _ H1 H2 Ep2) in Ep3.
  apply (Hset _ _ _ _ _ HL) in E; [|exact Ep3].
  destruct E as (Et & Er & Es). split; [exact Et|]. split; [exact Er|].
  unfold hasSensorData. rewrite Es. now rewrite !orb_true_r.
Qed.

(** The temperature that the cloud normaliser of the earlier revision
    stores: the outdoor one first, replaced by the indoor one when it is
    unset, 0 or NaN. *)
Lemma V11_temperature (now : Z) (data : jsval) (parsed : reading) :
  V11.parseEcowittCloudData now data = Some parsed ->
  temperature parsed =
    let outdoor := prop data "outdoor" in
    let indoor := prop data "indoor" in
    let first :=
      if truthy outdoor && truthy (prop outdoor "temperature")
      then Some (parseFloat (prop (prop outdoor "temperature") "value"))
      else None in
    if truthy indoor && V11.unset first && truthy (prop indoor "temperature")
    then Some (parseFloat (prop (prop indoor "temperature") "value"))
    else first.
Proof.
  unfold V11.parseEcowittCloudData. cbn zeta. intros E. V11_steps E.
  apply assign_Some in Ep, Ep0, Ep1, Ep2, E.
  apply (V11_soilChannels_inv (fun r => temperature r = temperature p2))
    in Ep3;
    [|intros x r; now destruct r|intros x r; now destruct r|reflexivity].
  subst parsed p2 p1 p0 p. unfold when in *.
  repeat match goal with
         | |- context [if ?c then _ else _] => destruct c eqn:?
         | H : context [if ?c then _ else _] |- _ => destruct c eqn:?
         end;
    cbn [temperature setTemperature setHumidity setLeafWetness] in *;
    congruence.
Qed.

Lemma V11_null_entry_throws (now : Z) (data : jsval) (l : list jsval)
    (i : nat) :
  prop data "soil_ch" = JArr l -> (i < 2)%nat ->
  l !! i = Some JNull \/ l !! i = Some JUndefined ->
  V11.parseEcowittCloudData now data = None.
Proof.
  intros El Hi H. unfold V11.parseEcowittCloudData. cbn zeta.
  repeat match goal with
         | |- mbind _ (assign ?c ?s ?v ?p) = None =>
             destruct (assign c s v p); cbn [mbind option_bind];
             [|reflexivity]
         end.
  now rewrite (V11_soilChannels_null data _ l i El Hi H).
Qed.

Lemma V11_parse_total (now : Z) (data : jsval) :
  (forall l i, prop data "soil_ch" = JArr l -> (i < 2)%nat ->
     l !! i <> Some JNull /\ l !! i <> Some JUndefined) ->
  Forall (fun v => toStringThrows v = false) (earlierValues data) ->
  exists parsed, V11.parseEcowittCloudData now data = Some parsed.
Proof.
  intros Hnull Hall. unfold earlierValues in Hall.
  repeat match goal with
         | H : Forall _ (_ :: _) |- _ =>
             apply Forall_cons in H; destruct H as [? H]
         end.
  unfold V11.parseEcowittCloudData. cbn zeta.
  repeat match goal with
         | |- context [assign ?c ?s ?v ?p] =>
             rewrite (assign_total c s v p) by assumption;
             cbn [mbind option_bind]
         end.
  match goal with
  | |- exists parsed, mbind _ (V11.soilChannels data ?p) = _ =>
      assert (Hs : exists p', V11.soilChannels data p = Some p')
  end.
  { unfold V11.soilChannels.
    destruct (truthy (prop data "soil_ch")
              && V11.isArray (prop data "soil_ch")); [|eauto].
    destruct (prop data "soil_ch") as [| | | | |l|] eqn:El; eauto.
    destruct (Hnull l 0%nat eq_refl) as [Hn0 Hu0]; [lia|].
    destruct (Hnull l 1%nat eq_refl) as [Hn1 Hu1]; [lia|].
    match goal with
    | |- context [V11.soilEntry setSoilMoisture1 _ ?p] =>
        destruct (V11_soilEntry_total setSoilMoisture1 l 0 p Hn0 Hu0)
          as (p1 & ->); [assumption|]
    end.
    now apply V11_soilEntry_total. }
  destruct Hs as (p' & ->). cbn [mbind option_bind].
  rewrite assign_total by assumption. eauto.
Qed.



(** C7 as stated fails in three ways.  In the last revision an outdoor
    value that is present as the number 0 is passed over for the indoor
    one.  In the revision before it, which the claim also covers, the
    value is not rounded ("72.34" is stored as 72.34), and an outdoor
    temperature of "0" is replaced by the indoor one. *)
Lemma cloud_temperature_claim_fails :
  let value (v : jsval) : jsval :=
    JObj {[ "temperature" := JObj {[ "value" := v ]} ]} in
  temperature
    <$> parseEcowittCloudData 0
          (JObj {[ "outdoor" := value (JNum (ofZ 0));
                   "indoor" := value (JStr "70") ]})
    = Some (Some (ofZ 70))
  /\ temperature
       <$> V11.parseEcowittCloudData 0
             (JObj {[ "outdoor" := value (JStr "72.34") ]})
     = Some (Some (binary64 72.34))
  /\ binary64 72.34 <> binary64 72.3
  /\ temperature
       <$> V11.parseEcowittCloudData 0
             (JObj {[ "outdoor" := value (JStr "0");
                      "indoor" := value (JStr "70") ]})
     = Some (Some (ofZ 70)).
Proof.
  intros value.
  split; [vm_compute; reflexivity|].
  split; [vm_compute; reflexivity|].
  split; [vm_compute; discriminate|].
  vm_compute. reflexivity.
Qed.

(** ** Presence of a metric *)

Lemma truthy_JStr (s : string) : s <> "" -> truthy (JStr s) = true.
Proof.
  intros Hs. cbn [truthy]. destruct (String.eqb_spec s ""); [contradiction|].
  reflexivity.
Qed.

(** A property read out of a value is defined only when that value is an
    object, which is truthy. *)
Lemma prop_defined_truthy (v : jsval) (k : string) :
  prop v k <> JUndefined -> truthy v = true.
Proof. destruct v; cbn [prop truthy]; congruence. Qed.

Lemma hasValue_JStr (data : jsval) (a b s : string) :
  s <> "" -> valueOf data a b = JStr s -> hasValue data a b = true.
Proof.
  intros Hs E. unfold hasValue, valueOf in *.
  rewrite E, (truthy_JStr s Hs).
  assert (H2 : truthy (prop (prop data a) b) = true).
  { apply (prop_defined_truthy _ "value"). rewrite E. discriminate. }
  assert (H1 : truthy (prop data a) = true).
  { apply (prop_defined_truthy _ b). intros E1. rewrite E1 in H2.
    discriminate. }
  now rewrite H1, H2.
Qed.

Lemma firstTruthy_head (data : jsval) (k : string) (rest : list string)
    (s : string) :
  s <> "" -> prop data k = JStr s ->
  firstTruthy data (k :: rest) = MNum (parseFloatString s).
Proof.
  intros Hs E. cbn [firstTruthy]. rewrite E, (truthy_JStr s Hs). reflexivity.
Qed.

Lemma parseEcowittData_fields (now : Z) (data : jsval) (parsed : reading) :
  parseEcowittData now data = Some parsed ->
  temperature parsed = flatTemperature data
  /\ soilMoisture1 parsed = firstTruthy data ["soilmoisture1"; "soilhum1"]
  /\ soilMoisture2 parsed = firstTruthy data ["soilmoisture2"; "soilhum2"]
  /\ leafWetness parsed =
       firstTruthy data ["leafwetness_ch1"; "leafwetness1"; "leafwet_ch1"].
Proof.
  intros E. apply parseEcowittData_Some in E as (_ & _ & _ & ->).
  repeat split; reflexivity.
Qed.

Lemma parseEcowittCloudData_soilMoisture1 (now : Z) (data : jsval)
    (parsed : reading) :
  parseEcowittCloudData now data = Some parsed ->
  soilMoisture1 parsed =
    if hasValue data "soil_ch1" "soilmoisture" then
      MNum (toFixed1 (parseFloat (valueOf data "soil_ch1" "soilmoisture")))
    else MUndefined.
Proof. intros E. cloud_fields E. Qed.

Lemma parseEcowittCloudData_soilMoisture2 (now : Z) (data : jsval)
    (parsed : reading) :
  parseEcowittCloudData now data = Some parsed ->
  soilMoisture2 parsed =
    if hasValue data "soil_ch2" "soilmoisture" then
      MNum (toFixed1 (parseFloat (valueOf data "soil_ch2" "soilmoisture")))
    else MUndefined.
Proof. intros E. cloud_fields E. Qed.

Lemma parseEcowittCloudData_leafWetness (now : Z) (data : jsval)
    (parsed : reading) :
  parseEcowittCloudData now data = Some parsed ->
  leafWetness parsed =
    if hasValue data "leaf_ch1" "leaf_wetness" then
      MNum (toFixed1 (parseFloat (valueOf data "leaf_ch1" "leaf_wetness")))
    else MUndefined.
Proof. intros E. cloud_fields E. Qed.

(** C2, as amended: a monitored field that carries zero as a text (a
    non-empty string that parseFloat reads as 0, such as "0") is present
    with value 0 after normalisation: soilmoisture1, soilmoisture2 and
    leafwetness_ch1 give 0, tempf gives the conversion of 0, -160/9, and in
    the cloud shape the soil, leaf and outdoor temperature values give 0;
    in the flat shape such a reading passes the storage test. *)
Theorem zero_text_is_present (now : Z) (data : jsval) (s : string) :
  s <> "" -> parseFloatString s = ofZ 0 ->
  (forall parsed, parseEcowittData now data = Some parsed ->
     (prop data "soilmoisture1" = JStr s ->
        soilMoisture1 parsed = MNum (ofZ 0) /\ hasSensorData parsed = true)
     /\ (prop data "soilmoisture2" = JStr s ->
        soilMoisture2 parsed = MNum (ofZ 0) /\ hasSensorData parsed = true)
     /\ (prop data "leafwetness_ch1" = JStr s ->
        leafWetness parsed = MNum (ofZ 0) /\ hasSensorData parsed = true)
     /\ (prop data "tempf" = JStr s ->
        temperature parsed = Some (binary64 (-160 # 9))
        /\ hasSensorData parsed = true))
  /\ (forall parsed, parseEcowittCloudData now data = Some parsed ->
     (valueOf data "soil_ch1" "soilmoisture" = JStr s ->
        soilMoisture1 parsed = MNum (ofZ 0))
     /\ (valueOf data "soil_ch2" "soilmoisture" = JStr s ->
        soilMoisture2 parsed = MNum (ofZ 0))
     /\ (valueOf data "leaf_ch1" "leaf_wetness" = JStr s ->
        leafWetness parsed = MNum (ofZ 0))
     /\ (valueOf data "outdoor" "temperature" = JStr s ->
        temperature parsed = Some (ofZ 0))).
Proof.
  intros Hs Hzero.
  split; [|intros parsed E; split; [|split; [|split]]].
  - intros parsed E.
    destruct (parseEcowittData_fields now data parsed E)
      as (Ht & H1 & H2 & Hl).
    unfold hasSensorData.
    split; [|split; [|split]]; intros Ek.
    + rewrite H1, (firstTruthy_head _ _ _ s Hs Ek), Hzero.
      split; [reflexivity|]. cbn [notNull]. now rewrite !orb_true_r.
    + rewrite H2, (firstTruthy_head _ _ _ s Hs Ek), Hzero.
      split; [reflexivity|]. cbn [notNull]. now rewrite !orb_true_r.
    + rewrite Hl, (firstTruthy_head _ _ _ s Hs Ek), Hzero.
      split; [reflexivity|]. cbn [notNull]. now rewrite !orb_true_r.
    + rewrite Ht. unfold flatTemperature.
      rewrite Ek, (truthy_JStr s Hs). unfold fahrenheitToCelsius.
      cbn [parseFloat]. rewrite Hzero. split; vm_compute; reflexivity.
  - intros Ek. rewrite (parseEcowittCloudData_soilMoisture1 _ _ _ E).
    rewrite (hasValue_JStr _ _ _ s Hs Ek), Ek. cbn [parseFloat].
    now rewrite Hzero.
  - intros Ek. rewrite (parseEcowittCloudData_soilMoisture2 _ _ _ E).
    rewrite (hasValue_JStr _ _ _ s Hs Ek), Ek. cbn [parseFloat].
    now rewrite Hzero.
  - intros Ek. rewrite (parseEcowittCloudData_leafWetness _ _ _ E).
    rewrite (hasValue_JStr _ _ _ s Hs Ek), Ek. cbn [parseFloat].
    now rewrite Hzero.
  - intros Ek. rewrite (parseEcowittCloudData_temperature _ _ _ E).
    rewrite (hasValue_JStr _ _ _ s Hs Ek), Ek. cbn [parseFloat].
    now rewrite Hzero.
Qed.

Lemma zero_text_is_present_witness :
  let data : jsval := JObj {[ "leafwetness_ch1" := JStr "0" ]} in
  let parsed :=
    mkReading 7 data None None MNull MNull (MNum (ofZ 0))
      (JStr "Unknown") (JStr "Unknown") JUndefined in
  ("0" : string) <> ""
  /\ parseFloatString "0" = ofZ 0
  /\ parseEcowittData 7 data = Some parsed
  /\ prop data "leafwetness_ch1" = JStr "0"
  /\ leafWetness parsed = MNum (ofZ 0)
  /\ hasSensorData parsed = true.
Proof.
  intros data parsed.
  assert (H1 : ("0" : string) <> "") by discriminate.
  assert (H2 : parseFloatString "0" = ofZ 0) by (vm_compute; reflexivity).
  assert (H3 : parseEcowittData 7 data = Some parsed)
    by (vm_compute; reflexivity).
  assert (H4 : prop data "leafwetness_ch1" = JStr "0")
    by (vm_compute; reflexivity).
  split; [exact H1|]. split; [exact H2|]. split; [exact H3|].
  split; [exact H4|].
  destruct (zero_text_is_present 7 data "0" H1 H2) as (H & _).
  destruct (H parsed H3) as (_ & _ & Hleaf & _).
  exact (Hleaf H4).
Defined.

(** C2 as stated fails for a zero that is a number rather than a text: the
    tests of the normalisers are truthiness tests, and the number 0 fails
    them like an absent field. *)
Lemma zero_number_is_absent :
  soilMoisture1
    <$> parseEcowittData 0 (JObj {[ "soilmoisture1" := JNum (ofZ 0) ]})
    = Some MNull
  /\ leafWetness
      <$> parseEcowittData 0 (JObj {[ "leafwetness_ch1" := JNum (ofZ 0) ]})
      = Some MNull
  /\ temperature
      <$> parseEcowittData 0 (JObj {[ "tempf" := JNum (ofZ 0) ]})
      = Some None
  /\ hasSensorData
      <$> parseEcowittData 0 (JObj {[ "soilmoisture1" := JNum (ofZ 0) ]})
      = Some false
  /\ soilMoisture1
       <$> parseEcowittCloudData 0
             (JObj {[ "soil_ch1" :=
                      JObj {[ "soilmoisture" :=
                              JObj {[ "value" := JNum (ofZ 0) ]} ]} ]})
     = Some MUndefined.
Proof. repeat split; vm_compute; reflexivity. Qed.

(** ** The webhook *)

(** A payload none of whose metric fields is present is acknowledged and
    not stored, provided that reading its humidity does not throw. *)
Lemma postEcowitt_without_metric (now : Z) (body : jsval) (st : state) :
  body <> JUndefined -> body <> JNull ->
  existsb toStringThrows (parseFloatArguments body) = false ->
  Forall (fun k => truthy (prop body k) = false) metricFieldNames ->
  fst (postEcowitt now body st) = (200%nat, "success")
  /\ sensorData (snd (postEcowitt now body st)) = sensorData st.
Proof.
  intros Hu Hn Ht Hall. rewrite postEcowitt_unfold.
  unfold metricFieldNames in Hall.
  repeat match goal with
         | H : Forall _ (_ :: _) |- _ =>
             apply Forall_cons in H; destruct H as [? H]
         end.
  destruct (parseEcowittData_complete now body Hu Hn Ht) as (parsed & E).
  assert (Hno : hasSensorData parsed = false).
  { apply parseEcowittData_Some in E as (_ & _ & _ & ->).
    unfold hasSensorData, flatTemperature.
    cbn [temperature soilMoisture1 soilMoisture2 leafWetness firstTruthy].
    repeat match goal with
           | H : truthy _ = false |- _ => rewrite H; clear H
           end.
    reflexivity. }
  rewrite E, Hno. cbn zeta. split; reflexivity.
Qed.

(** Every payload that is an object and whose values can be read is
    acknowledged with 200 "success", stored or not; one whose reading
    throws is answered with 500 "error". *)
Lemma postEcowitt_acknowledges (now : Z) (body : jsval) (st : state) :
  body <> JUndefined -> body <> JNull ->
  fst (postEcowitt now body st)
  = if existsb toStringThrows (parseFloatArguments body)
    then (500%nat, "error") else (200%nat, "success").
Proof.
  intros Hu Hn. rewrite postEcowitt_unfold. cbn zeta.
  destruct (existsb toStringThrows (parseFloatArguments body)) eqn:Et.
  - now rewrite (parseEcowittData_throws now body Et).
  - destruct (parseEcowittData_complete now body Hu Hn Et) as (parsed & ->).
    now destruct (hasSensorData parsed).
Qed.

(** The cloud normaliser never writes null, so the storage test accepts
    every cloud reading, with or without a metric. *)
Lemma cloud_reading_passes_storage_test (now : Z) (data : jsval)
    (parsed : reading) :
  parseEcowittCloudData now data = Some parsed ->
  hasSensorData parsed = true.
Proof.
  intros E. unfold hasSensorData.
  rewrite (parseEcowittCloudData_soilMoisture1 _ _ _ E).
  destruct (hasValue data "soil_ch1" "soilmoisture"); cbn [notNull];
    now rewrite orb_true_r.
Qed.

(** C3 at its failing input: the payload {tempf: "abc"} has no usable
    metric, its temperature reads as NaN, and the handler acknowledges it
    and stores a reading, whose temperature is NaN; the store grows from
    empty to one reading. *)
Theorem postEcowitt_stores_unreadable_temperature :
  let body : jsval := JObj {[ "tempf" := JStr "abc" ]} in
  parseFloat (prop body "tempf") = NaN
  /\ fst (postEcowitt 0 body initialState) = (200%nat, "success")
  /\ length (sensorData initialState) = 0%nat
  /\ length (sensorData (snd (postEcowitt 0 body initialState))) = 1%nat
  /\ temperature <$> sensorData (snd (postEcowitt 0 body initialState))
     = [Some NaN].
Proof.
  intros body. rewrite postEcowitt_unfold.
  repeat split; vm_compute; reflexivity.
Qed.

(** ** Alerts *)

Lemma temperatureAlerts_policy (latest : reading) (v : num) :
  temperature latest = Some v ->
  metricAndSeverity <$> temperatureAlerts latest
  = policyAlerts "temperature" temperatureIdeal temperatureCritical v.
Proof.
  intros E. unfold temperatureAlerts, policyAlerts, policySeverity, outside.
  rewrite E. cbn [lower upper temperatureIdeal temperatureCritical].
  unfold ranges_temperature_critical_min, ranges_temperature_critical_max,
    ranges_temperature_min, ranges_temperature_max.
  split_ifs; reflexivity.
Qed.

Lemma soilAlerts_policy (latest : reading) (sensor : nat) (v : num) :
  (sensor = 1%nat /\ soilMoisture1 latest = MNum v)
  \/ (sensor = 2%nat /\ soilMoisture2 latest = MNum v) ->
  metricAndSeverity <$> soilAlerts latest sensor
  = policyAlerts (soilMetricName sensor) soilIdeal soilCritical v.
Proof.
  intros [(-> & E)|(-> & E)];
    unfold soilAlerts, policyAlerts, policySeverity, outside;
    rewrite E; cbn [lower upper soilIdeal soilCritical];
    unfold ranges_soilMoisture_critical_min, ranges_soilMoisture_critical_max,
      ranges_soilMoisture_min, ranges_soilMoisture_max;
    split_ifs; reflexivity.
Qed.

Lemma leafAlerts_policy (latest : reading) (v : num) :
  leafWetness latest = MNum v ->
  metricAndSeverity <$> leafAlerts latest
  = policyAlerts "leafWetness" leafIdeal leafCritical v.
Proof.
  intros E. unfold leafAlerts, policyAlerts, policySeverity, outside.
  rewrite E. cbn [lower upper leafIdeal leafCritical orb].
  unfold ranges_leafWetness_critical_max, ranges_leafWetness_max.
  split_ifs; reflexivity.
Qed.

Lemma evaluate_perm (latest : reading) :
  evaluate latest ≡ₚ
    temperatureAlerts latest ++ soilAlerts latest 1 ++ soilAlerts latest 2
    ++ leafAlerts latest.
Proof.
  unfold evaluate. rewrite arraySort_perm. unfold collectAlerts.
  cbn [flat_map]. now rewrite app_nil_r, <- app_assoc.
Qed.

Lemma soilAlerts_not_temperature (latest : reading) (sensor : nat) :
  filter (fun a => alertMetric a = "temperature") (soilAlerts latest sensor)
  = [].
Proof.
  unfold soilAlerts, soilMetricName.
  destruct sensor as [|[|sensor]];
    match goal with
    | |- context [match ?m with MNum _ => _ | _ => _ end] => destruct m
    end; try reflexivity; split_ifs; reflexivity.
Qed.

Lemma leafAlerts_not_temperature (latest : reading) :
  filter (fun a => alertMetric a = "temperature") (leafAlerts latest) = [].
Proof.
  unfold leafAlerts.
  destruct (leafWetness latest); try reflexivity; split_ifs; reflexivity.
Qed.

Lemma evaluate_temperature_alerts (latest : reading) (a : alert) :
  temperatureAlerts latest = [a] -> alertMetric a = "temperature" ->
  filter (fun a => alertMetric a = "temperature") (evaluate latest) = [a].
Proof.
  intros E Ha.
  apply Permutation_singleton_r.
  rewrite evaluate_perm, !filter_app, E.
  rewrite !soilAlerts_not_temperature, leafAlerts_not_temperature.
  rewrite filter_cons_True by exact Ha. reflexivity.
Qed.

(** C8: for every latest reading, each present metric raises the alert the
    policy asks for: "critical" outside the critical band, otherwise
    "warning" outside the ideal band, otherwise none; the response holds
    these alerts and no others.  A reading with temperature 5 has exactly
    one temperature alert, which is critical, and one with temperature 27
    has exactly one, which is a warning. *)
Theorem alerts_follow_policy (latest : reading) :
  (forall v, temperature latest = Some v ->
     metricAndSeverity <$> temperatureAlerts latest
     = policyAlerts "temperature" temperatureIdeal temperatureCritical v)
  /\ (forall v, soilMoisture1 latest = MNum v ->
     metricAndSeverity <$> soilAlerts latest 1
     = policyAlerts "soilMoisture1" soilIdeal soilCritical v)
  /\ (forall v, soilMoisture2 latest = MNum v ->
     metricAndSeverity <$> soilAlerts latest 2
     = policyAlerts "soilMoisture2" soilIdeal soilCritical v)
  /\ (forall v, leafWetness latest = MNum v ->
     metricAndSeverity <$> leafAlerts latest
     = policyAlerts "leafWetness" leafIdeal leafCritical v)
  /\ evaluate latest ≡ₚ
       temperatureAlerts latest ++ soilAlerts latest 1
       ++ soilAlerts latest 2 ++ leafAlerts latest
  /\ (temperature latest = Some (ofZ 5) ->
      filter (fun a => alertMetric a = "temperature") (evaluate latest)
      = [ mkAlert "temperature" (ofZ 5) "critical"
            (TemperatureCritically true (ofZ 5)) ])
  /\ (temperature latest = Some (ofZ 27) ->
      filter (fun a => alertMetric a = "temperature") (evaluate latest)
      = [ mkAlert "temperature" (ofZ 27) "warning"
            (TemperatureOutsideIdeal (ofZ 27)) ]).
Proof.
  split; [|split; [|split; [|split; [|split; [|split]]]]].
  - apply temperatureAlerts_policy.
  - intros v E. apply (soilAlerts_policy latest 1 v). now left.
  - intros v E. apply (soilAlerts_policy latest 2 v). now right.
  - apply leafAlerts_policy.
  - apply evaluate_perm.
  - intros E. apply evaluate_temperature_alerts; [|reflexivity].
    unfold temperatureAlerts. rewrite E. reflexivity.
  - intros E. apply evaluate_temperature_alerts; [|reflexivity].
    unfold temperatureAlerts. rewrite E. reflexivity.
Qed.

Lemma alerts_follow_policy_witness :
  let latest :=
    mkReading 0 JNull (Some (ofZ 5)) None MNull (MNum (ofZ 70)) MNull
      JUndefined JUndefined JUndefined in
  temperature latest = Some (ofZ 5)
  /\ soilMoisture2 latest = MNum (ofZ 70)
  /\ filter (fun a => alertMetric a = "temperature") (evaluate latest)
     = [ mkAlert "temperature" (ofZ 5) "critical"
           (TemperatureCritically true (ofZ 5)) ]
  /\ metricAndSeverity <$> soilAlerts latest 2
     = policyAlerts "soilMoisture2" soilIdeal soilCritical (ofZ 70)
  /\ policyAlerts "soilMoisture2" soilIdeal soilCritical (ofZ 70)
     = [("soilMoisture2", "warning")].
Proof.
  intros latest.
  destruct (alerts_follow_policy latest) as (_ & _ & H2 & _ & _ & H5 & _).
  split; [reflexivity|]. split; [reflexivity|].
  split; [apply H5; reflexivity|].
  split; [apply H2; reflexivity|].
  vm_compute. reflexivity.
Defined.

(** The comparator of the alert sort answers "a first" for two critical
    alerts whichever way round they are given. *)
Lemma bySeverity_inconsistent (a b : alert) :
  severity a = "critical" -> severity b = "critical" ->
  bySeverity a b = ofZ (-1) /\ bySeverity b a = ofZ (-1).
Proof. intros Ha Hb. unfold bySeverity. now rewrite Ha, Hb. Qed.

(** In every response the critical alerts come before the warnings. *)
Lemma evaluate_criticalFirst (latest : reading) :
  criticalFirst (evaluate latest) = true.
Proof.
  unfold evaluate, collectAlerts, temperatureAlerts, soilAlerts, leafAlerts.
  cbn [flat_map].
  destruct (temperature latest), (soilMoisture1 latest),
    (soilMoisture2 latest), (leafWetness latest);
    split_ifs; reflexivity.
Qed.

(** C4 at its failing input: a latest reading with temperature 5 and soil
    moisture #1 at 10 raises two critical alerts, pushed in the order
    temperature, soil moisture 1; the comparator claims each of them goes
    before the other, and the sorted list of the response has soil
    moisture 1 before temperature. *)
Theorem evaluate_reverses_critical_alerts :
  let latest :=
    mkReading 0 JNull (Some (ofZ 5)) None (MNum (ofZ 10)) MNull MNull
      JUndefined JUndefined JUndefined in
  let temperatureAlert :=
    mkAlert "temperature" (ofZ 5) "critical"
      (TemperatureCritically true (ofZ 5)) in
  let soilAlert :=
    mkAlert "soilMoisture1" (ofZ 10) "critical"
      (SoilCritically 1 true (ofZ 10)) in
  collectAlerts latest = [temperatureAlert; soilAlert]
  /\ evaluate latest = [soilAlert; temperatureAlert]
  /\ bySeverity temperatureAlert soilAlert = ofZ (-1)
  /\ bySeverity soilAlert temperatureAlert = ofZ (-1).
Proof.
  intros latest temperatureAlert soilAlert.
  split; [|split; [|split]]; vm_compute; reflexivity.
Qed.

(** ** Reads *)

(** C9: whatever the store and the clock reading, a sequence of calls to
    getLatest, getStats and getAlerts with no ingestion in between leaves
    the state as it was, and every call returns what it returns when it is
    the first call: repeated calls return identical results. *)
Theorem reads_are_repeatable (now : Z) (ops : list readOp) (st : state) :
  runReads now ops st = (map (fun op => fst (runRead now op st)) ops, st).
Proof.
  induction ops as [|op ops IH]; [reflexivity|].
  cbn [runReads map]. unfold mbind, M_bind at 1.
  pose proof (runRead_state now op st) as Hst.
  destruct (runRead now op st) as [r st1]. cbn [fst snd] in *. subst st1.
  unfold mbind, M_bind at 1. rewrite IH. reflexivity.
Qed.

(** ** History *)

Lemma opp_ofZ (n : Z) : Num.opp (ofZ n) = ofZ (- n).
Proof.
  unfold Num.opp, ofZ. f_equal.
  change (- inject_Z n)%Q with (inject_Z (- n)).
  apply Qred_identity. apply Z.gcd_1_r.
Qed.

Lemma truncQ_inject_Z (n : Z) : truncQ (inject_Z n) = n.
Proof. unfold truncQ, inject_Z. cbn [Qnum Qden]. apply Z.quot_1_r. Qed.

Lemma sliceFrom_ofZ {A : Type} (n : Z) (l : list A) :
  sliceFrom (ofZ n) l =
    drop (Z.to_nat (if n <? 0 then Z.max (Z.of_nat (length l) + n) 0
                    else Z.min n (Z.of_nat (length l)))) l.
Proof. unfold sliceFrom, ofZ. now rewrite truncQ_inject_Z. Qed.

Lemma getHistory_unfold (now : Z) (limit hours : option string) (st : state) :
  getHistory now limit hours st =
    let filtered :=
      sliceFrom
        (Num.opp match limit with
                 | Some s => parseIntString s
                 | None => ofZ 100
                 end)
        (filterByHours now hours (sensorData st)) in
    (mkHistory (length filtered) filtered, st).
Proof. reflexivity. Qed.

(** A negative limit -n drops the n oldest readings of the window. *)
Lemma getHistory_negative_limit (now : Z) (limit : string)
    (hours : option string) (st : state) (n : Z) :
  0 < n -> parseIntString limit = ofZ (- n) ->
  historyReadings (fst (getHistory now (Some limit) hours st))
  = drop (Z.to_nat n) (filterByHours now hours (sensorData st)).
Proof.
  intros Hn E. rewrite getHistory_unfold. cbn [fst historyReadings].
  rewrite E, opp_ofZ, Z.opp_involutive, sliceFrom_ofZ.
  destruct (n <? 0) eqn:En; [apply Z.ltb_lt in En; lia|].
  destruct (Z.min_spec n (Z.of_nat (length (filterByHours now hours
                                               (sensorData st)))))
    as [(_ & ->)|(Hle & ->)]; [reflexivity|].
  rewrite Nat2Z.id, !drop_ge; [reflexivity|lia|lia].
Qed.

(** A limit that reads as 0 or as not-a-number returns the whole window. *)
Lemma getHistory_whole_window (now : Z) (limit : string)
    (hours : option string) (st : state) :
  parseIntString limit = ofZ 0 \/ parseIntString limit = NaN ->
  historyReadings (fst (getHistory now (Some limit) hours st))
  = filterByHours now hours (sensorData st)
  /\ historyCount (fst (getHistory now (Some limit) hours st))
     = length (filterByHours now hours (sensorData st)).
Proof.
  rewrite getHistory_unfold. cbn [fst historyReadings historyCount].
  intros [E|E]; rewrite E.
  - rewrite opp_ofZ, sliceFrom_ofZ. cbn [Z.opp Z.ltb Z.compare].
    rewrite Z.min_l by lia. now split.
  - now split.
Qed.

(** A limit that reads as n > 0 returns the last n readings of the window,
    or all of them when there are fewer. *)
Lemma getHistory_positive_limit (now : Z) (limit : string)
    (hours : option string) (st : state) (n : Z) :
  0 < n -> parseIntString limit = ofZ n ->
  Z.of_nat (historyCount (fst (getHistory now (Some limit) hours st))) <= n
  /\ historyReadings (fst (getHistory now (Some limit) hours st))
     = drop (length (filterByHours now hours (sensorData st)) - Z.to_nat n)
            (filterByHours now hours (sensorData st)).
Proof.
  rewrite getHistory_unfold. cbn [fst historyReadings historyCount].
  set (window := filterByHours now hours (sensorData st)).
  intros Hn E. rewrite E, opp_ofZ, sliceFrom_ofZ.
  destruct (- n <? 0) eqn:En; [|apply Z.ltb_ge in En; lia].
  replace (Z.to_nat (Z.max (Z.of_nat (length window) + - n) 0))
    with (length window - Z.to_nat n)%nat by lia.
  split; [|reflexivity]. rewrite length_drop. lia.
Qed.

(** The window keeps the readings of the store in their order. *)
Lemma filterByHours_sublist (now : Z) (hours : option string)
    (l : list reading) :
  filterByHours now hours l `sublist_of` l.
Proof.
  unfold filterByHours. destruct hours as [h|]; [|reflexivity].
  destruct (truthy (JStr h)); [apply sublist_filter|reflexivity].
Qed.

(** C10, as amended: with a limit that reads as 0 (such as "0") or as
    not-a-number (such as "abc"), the history endpoint returns the whole
    time-filtered history, in the order of the store, and its count is the
    size of that history; with a limit that reads as n > 0 it returns the
    last n readings of that history at most; with a limit that reads as
    -n < 0 it returns that history without its n oldest readings. *)
Theorem history_degenerate_limit (now : Z) (limit : string)
    (hours : option string) (st : state) :
  ((parseIntString limit = ofZ 0 \/ parseIntString limit = NaN) ->
     historyReadings (fst (getHistory now (Some limit) hours st))
     = filterByHours now hours (sensorData st)
     /\ historyCount (fst (getHistory now (Some limit) hours st))
        = length (filterByHours now hours (sensorData st)))
  /\ (forall n, 0 < n -> parseIntString limit = ofZ n ->
        Z.of_nat (historyCount (fst (getHistory now (Some limit) hours st)))
        <= n
        /\ historyReadings (fst (getHistory now (Some limit) hours st))
           = drop (length (filterByHours now hours (sensorData st))
                   - Z.to_nat n)
                  (filterByHours now hours (sensorData st)))
  /\ (forall n, 0 < n -> parseIntString limit = ofZ (- n) ->
        historyReadings (fst (getHistory now (Some limit) hours st))
        = drop (Z.to_nat n) (filterByHours now hours (sensorData st)))
  /\ filterByHours now hours (sensorData st) `sublist_of` sensorData st
  /\ parseIntString "0" = ofZ 0
  /\ parseIntString "abc" = NaN.
Proof.
  split; [apply getHistory_whole_window|].
  split; [apply getHistory_positive_limit|].
  split; [intros n; apply getHistory_negative_limit|].
  split; [apply filterByHours_sublist|].
  split; vm_compute; reflexivity.
Qed.

Lemma history_degenerate_limit_witness :
  let r := fun t =>
    mkReading t JNull (Some (ofZ 20)) None MNull MNull MNull
      JUndefined JUndefined JUndefined in
  let st := mkState [r 1; r 2; r 3] None in
  parseIntString "0" = ofZ 0
  /\ historyReadings (fst (getHistory 10 (Some "0") None st))
     = filterByHours 10 None (sensorData st)
  /\ historyCount (fst (getHistory 10 (Some "0") None st)) = 3%nat.
Proof.
  intros r st.
  assert (E : parseIntString "0" = ofZ 0) by (vm_compute; reflexivity).
  split; [exact E|].
  destruct (history_degenerate_limit 10 "0" None st) as (H & _).
  destruct (H (or_introl E)) as (H1 & H2).
  split; [exact H1|]. rewrite H2. reflexivity.
Defined.

(** C10 as stated fails on "exactly": a limit of -1 is numeric and not
    zero, yet on a store of three readings the endpoint returns two
    readings, more than the limit asked for. *)
Lemma history_negative_limit_exceeded :
  let r := fun t =>
    mkReading t JNull (Some (ofZ 20)) None MNull MNull MNull
      JUndefined JUndefined JUndefined in
  let st := mkState [r 1; r 2; r 3] None in
  parseIntString "-1" = ofZ (-1)
  /\ historyReadings (fst (getHistory 10 (Some "-1") None st)) = [r 2; r 3]
  /\ -1 < Z.of_nat (historyCount (fst (getHistory 10 (Some "-1") None st))).
Proof.
  intros r st. split; [|split].
  - vm_compute. reflexivity.
  - vm_compute. reflexivity.
  - vm_compute. reflexivity.
Qed.

(** * Further properties *)

(** ** Integers as numbers *)

Lemma Qred_integer (q : Q) (z : Z) : (q == inject_Z z)%Q -> Qred q = inject_Z z.
Proof.
  intros E. rewrite (Qred_complete _ _ E).
  apply Qred_identity. apply Z.gcd_1_r.
Qed.

Lemma roundHalfEven_1 (n : Z) : roundHalfEven n 1 = n.
Proof.
  unfold roundHalfEven. rewrite Z.mod_1_r, Z.div_1_r. reflexivity.
Qed.

(** An integer of at most 53 bits is a binary64 number: rounding leaves it
    as it is. *)
Lemma binary64_integer (z : Z) :
  Z.abs z < 2 ^ 53 -> binary64 (inject_Z z) = Fin (inject_Z z).
Proof.
  intros Hz. unfold binary64, inject_Z. cbn [Qnum Qden].
  destruct (Z.eq_dec z 0) as [->|Hnz]; [reflexivity|].
  assert (Hpos : 0 < Z.abs z) by lia.
  set (n := Z.abs z) in *.
  assert (Hlog : 0 <= Z.log2 n < 53).
  { split; [apply Z.log2_nonneg|]. apply Z.log2_lt_pow2; lia. }
  assert (Hfl : floorLog2 n 1 = Z.log2 n).
  { unfold floorLog2. change (Z.log2 1) with 0. rewrite Z.sub_0_r.
    destruct (0 <=? Z.log2 n) eqn:E; [|apply Z.leb_gt in E; lia].
    rewrite Z.mul_1_r.
    destruct (n <? 2 ^ Z.log2 n) eqn:E2; [|reflexivity].
    apply Z.ltb_lt in E2. pose proof (Z.log2_spec n Hpos). lia. }
  rewrite Hfl.
  assert (Hk : Z.max (Z.log2 n) (-1022) - 52 = Z.log2 n - 52) by lia.
  rewrite Hk. clear Hk Hfl.
  set (k := Z.log2 n - 52) in *.
  assert (Hsgn : Z.sgn z * n = z) by (unfold n; lia).
  destruct (0 <=? k) eqn:Ek.
  - apply Z.leb_le in Ek. assert (k = 0) as -> by lia.
    change (2 ^ 0) with 1. rewrite !Z.mul_1_r, roundHalfEven_1.
    destruct (2 ^ 1024 <=? n) eqn:Eo.
    { apply Z.leb_le in Eo.
      assert (2 ^ 53 < 2 ^ 1024) by (apply Z.pow_lt_mono_r; lia). lia. }
    rewrite Hsgn. destruct z; [lia|reflexivity|reflexivity].
  - apply Z.leb_gt in Ek. rewrite roundHalfEven_1.
    assert (Hp : 0 < 2 ^ (- k)) by (apply Z.pow_pos_nonneg; lia).
    assert (E : Qred (Z.sgn z * (n * 2 ^ (- k)) # Z.to_pos (2 ^ (- k)))
                = inject_Z z).
    { apply Qred_integer. unfold Qeq, inject_Z. cbn [Qnum Qden].
      rewrite Z2Pos.id by exact Hp. lia. }
    rewrite E. destruct z; [lia|reflexivity|reflexivity].
Qed.

Lemma rounded_ofZ (z : Z) : Z.abs z < 2 ^ 53 -> rounded (ofZ z) = ofZ z.
Proof. apply binary64_integer. Qed.

Lemma add_ofZ (a b : Z) : (ofZ a + ofZ b)%num = ofZ (a + b).
Proof.
  unfold Num.add, ofZ. f_equal. apply Qred_integer.
  now rewrite inject_Z_plus.
Qed.

Lemma sub_ofZ (a b : Z) : (ofZ a - ofZ b)%num = ofZ (a - b).
Proof. unfold Num.sub. now rewrite opp_ofZ, add_ofZ. Qed.

Lemma mul_ofZ (a b : Z) : (ofZ a * ofZ b)%num = ofZ (a * b).
Proof.
  unfold Num.mul, ofZ. f_equal. apply Qred_integer.
  now rewrite inject_Z_mult.
Qed.

Lemma timeClip_ofZ (z : Z) :
  Z.abs z <= 8640000000000000 -> timeClip (ofZ z) = Some z.
Proof.
  intros Hz. unfold timeClip, ofZ.
  assert (E : Qle_bool (Qabs (inject_Z z)) (inject_Z 8640000000000000)
              = true).
  { apply Qle_bool_iff.
    change (Qabs (inject_Z z)) with (inject_Z (Z.abs z)).
    now rewrite <- Zle_Qle. }
  now rewrite E, truncQ_inject_Z.
Qed.

(** ** More on the statistics *)

Lemma at_last (l : list metric) :
  at_ l (length l - 1) = default MUndefined (last l).
Proof.
  unfold at_. rewrite last_lookup.
  now replace (length l - 1)%nat with (pred (length l)) by lia.
Qed.

Lemma calculateStats_finite (qs : list Q) :
  qs <> [] ->
  exists s a,
    s ≡ₚ qs /\ StronglySorted Qle s
    /\ calculateStats (map finite qs)
       = Some {| min := at_ (map finite s) 0;
                 max := at_ (map finite s) (length qs - 1);
                 avg := a;
                 median := at_ (map finite s) (length qs / 2);
                 count := length qs |}.
Proof.
  intros Hne.
  destruct (sortValues_finite qs) as (s & Es & Hperm & Hsorted).
  assert (Hlen : length s = length qs) by now rewrite Hperm.
  unfold calculateStats. rewrite length_map.
  destruct (length qs) eqn:El; [now destruct qs|].
  exists s. eexists. split; [exact Hperm|]. split; [exact Hsorted|].
  rewrite Es, length_map, Hlen. reflexivity.
Qed.

(** X1: on ordinary numbers [calculateStats] reports as [min] and [max] two
    of the values given, no value lies below [min] or above [max], and
    [count] is the number of values. *)
Theorem calculateStats_extremes (qs : list Q) :
  qs <> [] ->
  exists st lo hi,
    calculateStats (map finite qs) = Some st
    /\ min st = finite lo /\ max st = finite hi
    /\ lo ∈ qs /\ hi ∈ qs
    /\ (forall q, q ∈ qs -> (lo <= q)%Q /\ (q <= hi)%Q)
    /\ count st = length qs.
Proof.
  intros Hne.
  destruct (calculateStats_finite qs Hne) as (s & a & Hperm & Hsorted & E).
  assert (Hlen : length s = length qs) by now rewrite Hperm.
  assert (Hpos : (0 < length qs)%nat) by (destruct qs; [done|cbn; lia]).
  destruct (lookup_lt_is_Some_2 s 0) as [lo Hlo]; [lia|].
  destruct (lookup_lt_is_Some_2 s (length qs - 1)) as [hi Hhi]; [lia|].
  eexists _, lo, hi. split; [exact E|]. cbn [min max count].
  split; [now apply at_finite|]. split; [now apply at_finite|].
  split; [rewrite <- Hperm; eapply list_elem_of_lookup_2; eauto|].
  split; [rewrite <- Hperm; eapply list_elem_of_lookup_2; eauto|].
  split; [|reflexivity].
  intros q Hq. rewrite <- Hperm in Hq.
  apply list_elem_of_lookup in Hq as (i & Hi).
  pose proof (lookup_lt_Some _ _ _ Hi) as Hilt.
  split.
  - destruct (decide (i = 0%nat)) as [->|Hne0].
    + rewrite Hlo in Hi. injection Hi as ->. apply Qle_refl.
    + eapply (StronglySorted_lookup_lt Qle s 0 i); eauto. lia.
  - destruct (decide (i = (length qs - 1)%nat)) as [->|Hne1].
    + rewrite Hhi in Hi. injection Hi as ->. apply Qle_refl.
    + eapply (StronglySorted_lookup_lt Qle s i (length qs - 1)); eauto. lia.
Qed.

Lemma calculateStats_extremes_witness :
  [3%Q; 1%Q; 2%Q] <> []
  /\ exists st lo hi,
       calculateStats (map finite [3%Q; 1%Q; 2%Q]) = Some st
       /\ min st = finite lo /\ max st = finite hi
       /\ lo ∈ [3%Q; 1%Q; 2%Q] /\ hi ∈ [3%Q; 1%Q; 2%Q]
       /\ (forall q, q ∈ [3%Q; 1%Q; 2%Q] -> (lo <= q)%Q /\ (q <= hi)%Q)
       /\ count st = length [3%Q; 1%Q; 2%Q].
Proof.
  split; [discriminate|].
  apply (calculateStats_extremes [3%Q; 1%Q; 2%Q]). discriminate.
Defined.

(** X3: for an odd number 2k + 1 of ordinary values the [median] of
    [calculateStats] is the middle element of the ascending arrangement:
    the k values before it are at most the median and the k values after
    it are at least the median. *)
Theorem calculateStats_median_odd (qs : list Q) (k : nat) :
  length qs = (2 * k + 1)%nat ->
  exists st s m,
    calculateStats (map finite qs) = Some st
    /\ s ≡ₚ qs /\ StronglySorted Qle s
    /\ s !! k = Some m
    /\ median st = finite m
    /\ Forall (fun q => (q <= m)%Q) (take k s)
    /\ Forall (fun q => (m <= q)%Q) (drop (S k) s)
    /\ length (take k s) = k /\ length (drop (S k) s) = k.
Proof.
  intros Hlen.
  assert (Hne : qs <> []) by (intros ->; cbn in Hlen; lia).
  destruct (calculateStats_finite qs Hne) as (s & a & Hperm & Hsorted & E).
  assert (Hs : length s = (2 * k + 1)%nat) by now rewrite Hperm.
  destruct (lookup_lt_is_Some_2 s k) as [m Hm]; [lia|].
  eexists _, s, m. split; [exact E|]. cbn [median].
  split; [exact Hperm|]. split; [exact Hsorted|]. split; [exact Hm|].
  split.
  { rewrite Hlen.
    replace ((2 * k + 1) / 2)%nat with k.
    - now apply at_finite.
    - apply (Nat.div_unique _ 2 k 1); lia. }
  split; [|split; [|split]].
  - apply Forall_lookup_2. intros i q Hq.
    apply lookup_take_Some in Hq as (Hq & Hi).
    eapply (StronglySorted_lookup_lt Qle s i k); eauto.
  - apply Forall_lookup_2. intros i q Hq.
    rewrite lookup_drop in Hq.
    eapply (StronglySorted_lookup_lt Qle s k (S k + i)); eauto. lia.
  - rewrite length_take. lia.
  - rewrite length_drop. lia.
Qed.

Lemma calculateStats_median_odd_witness :
  length [3%Q; 1%Q; 2%Q] = (2 * 1 + 1)%nat
  /\ exists st s m,
       calculateStats (map finite [3%Q; 1%Q; 2%Q]) = Some st
       /\ s ≡ₚ [3%Q; 1%Q; 2%Q] /\ StronglySorted Qle s
       /\ s !! 1%nat = Some m
       /\ median st = finite m
       /\ Forall (fun q => (q <= m)%Q) (take 1 s)
       /\ Forall (fun q => (m <= q)%Q) (drop 2 s)
       /\ length (take 1 s) = 1%nat /\ length (drop 2 s) = 1%nat.
Proof.
  split; [reflexivity|].
  apply (calculateStats_median_odd [3%Q; 1%Q; 2%Q] 1). reflexivity.
Defined.

(** ** The statistics endpoint *)

Lemma getStats_unfold (now : Z) (hours : option string) (st : state) :
  getStats now hours st =
    let hoursNum :=
      match hours with
      | Some h => toNumberString h
      | None => ofZ 24
      end in
    let filtered :=
      filter (fun r => notBefore (cutoffTime now hoursNum) r = true)
             (sensorData st) in
    (match filtered with
     | [] => StatsNoData "No data available for this period"
     | first :: _ =>
         StatsReport {|
           statsTemperature :=
             calculateStats
               (filter (fun v => isUndefined v = false)
                       (map temperatureValue filtered));
           statsSoilMoisture1 :=
             calculateStats
               (filter (fun v => notNull v = true)
                       (map soilMoisture1 filtered));
           statsSoilMoisture2 :=
             calculateStats
               (filter (fun v => notNull v = true)
                       (map soilMoisture2 filtered));
           statsLeafWetness :=
             calculateStats
               (filter (fun v => notNull v = true)
                       (map leafWetness filtered));
           statsCount := length filtered;
           timeRangeStart := Some (timestamp first);
           timeRangeEnd := timestamp <$> last filtered
         |}
     end, st).
Proof.
  unfold getStats, mbind, M_bind, getSensorData, mret, M_ret. cbn zeta.
  now destruct (filter _ (sensorData st)).
Qed.

(** For a whole number of hours the cutoff is computed without any
    rounding: every intermediate result is an integer of fewer than 53
    bits. *)
Lemma cutoffTime_hours (now k : Z) :
  Z.abs k <= 2000000000 ->
  Z.abs (now - k * 3600000) <= 8640000000000000 ->
  cutoffTime now (ofZ k) = Some (now - k * 3600000).
Proof.
  intros Hk Hb. unfold cutoffTime.
  assert (H53 : 2 ^ 53 = 9007199254740992) by reflexivity.
  rewrite mul_ofZ, rounded_ofZ by lia.
  rewrite mul_ofZ, rounded_ofZ by lia.
  rewrite mul_ofZ, rounded_ofZ by lia.
  rewrite sub_ofZ, rounded_ofZ by lia.
  replace (k * 60 * 60 * 1000) with (k * 3600000) by lia.
  now apply timeClip_ofZ.
Qed.

Lemma window_filter (now k : Z) (l : list reading) :
  Z.abs k <= 2000000000 ->
  Z.abs (now - k * 3600000) <= 8640000000000000 ->
  filter (fun r => notBefore (cutoffTime now (ofZ k)) r = true) l
  = filter (fun r => now - k * 3600000 <= timestamp r) l.
Proof.
  intros Hk Hb. rewrite (cutoffTime_hours now k Hk Hb).
  apply list_filter_iff. intros r. cbn [notBefore]. apply Z.leb_le.
Qed.

Lemma sortValues_length (values : list metric) :
  length (sortValues values) = length values.
Proof.
  unfold sortValues.
  rewrite length_app, (Permutation_length (arraySort_perm byDifference _)).
  induction values as [|m l IH]; [reflexivity|].
  rewrite !filter_cons.
  destruct m; cbn [isUndefined];
    repeat match goal with
           | |- context [decide ?P] => destruct (decide P); try congruence
           end; cbn [length]; lia.
Qed.

Lemma calculateStats_count (values : list metric) :
  default 0%nat (count <$> calculateStats values) = length values.
Proof.
  unfold calculateStats. destruct values as [|m l]; [reflexivity|].
  cbn [length fmap option_fmap option_map default from_option id count].
  apply sortValues_length.
Qed.

Lemma length_filter_map {A B : Type} (f : A -> B) (P : B -> Prop)
    `{!forall b, Decision (P b)} (l : list A) :
  length (filter P (map f l)) = length (filter (fun a => P (f a)) l).
Proof.
  induction l as [|a l IH]; [reflexivity|]. cbn [map].
  rewrite !filter_cons. destruct (decide (P (f a))); cbn [length]; lia.
Qed.



Lemma fold_sum_NaN (l : list metric) :
  fold_left (fun a b => rounded (a + metricToNumber b)%num) l NaN = NaN.
Proof. induction l as [|m l IH]; [reflexivity|exact IH]. Qed.

Lemma fold_sum_undefined (l : list metric) : forall x,
  MUndefined ∈ l ->
  fold_left (fun a b => rounded (a + metricToNumber b)%num) l x = NaN.
Proof.
  induction l as [|m l IH]; intros x Hin; [now apply elem_of_nil in Hin|].
  apply elem_of_cons in Hin as [<-|Hin]; cbn [fold_left].
  - cbn [metricToNumber]. replace (x + NaN)%num with NaN by now destruct x.
    apply fold_sum_NaN.
  - now apply IH.
Qed.

(** A value that is undefined spoils the aggregate: the mean is NaN and
    the maximum is undefined. *)
Lemma calculateStats_undefined (values : list metric) :
  MUndefined ∈ values ->
  exists stx, calculateStats values = Some stx
              /\ avg stx = NaN /\ max stx = MUndefined.
Proof.
  intros Hin. unfold calculateStats.
  destruct (length values) eqn:El.
  { destruct values; [now apply elem_of_nil in Hin|discriminate]. }
  eexists. split; [reflexivity|]. cbn [avg max].
  assert (Hu : MUndefined ∈ filter (fun m => isUndefined m = true) values)
    by now apply list_elem_of_filter.
  split.
  - rewrite fold_sum_undefined; [reflexivity|].
    unfold sortValues. apply elem_of_app. now right.
  - rewrite at_last. unfold sortValues.
    destruct (filter (fun m => isUndefined m = true) values) as [|u us] eqn:Eu;
      [now apply elem_of_nil in Hu|].
    rewrite last_app_cons.
    destruct (last (u :: us)) as [x|] eqn:Ex;
      [|apply last_None in Ex; discriminate Ex].
    apply last_Some_elem_of in Ex. rewrite <- Eu in Ex.
    apply list_elem_of_filter in Ex as [Hx _].
    now destruct x.
Qed.

(** X5: a reading of the window whose soil moisture #1 was never set (a
    cloud reading without that channel passes the filter [v !== null])
    spoils the soil moisture #1 statistics of the whole window: the
    answer reports a mean that is NaN and a maximum that is undefined. *)
Theorem getStats_unset_soil_spoils (now : Z) (st : state) (r : reading) :
  Z.abs (now - 24 * 3600000) <= 8640000000000000 ->
  r ∈ sensorData st ->
  now - 24 * 3600000 <= timestamp r ->
  soilMoisture1 r = MUndefined ->
  exists s stx,
    fst (getStats now None st) = StatsReport s
    /\ statsSoilMoisture1 s = Some stx
    /\ avg stx = NaN /\ max stx = MUndefined.
Proof.
  intros Hb Hin Hr Hsoil.
  assert (Hw : r ∈ filter (fun r => now - 24 * 3600000 <= timestamp r)
                          (sensorData st))
    by now apply list_elem_of_filter.
  destruct (calculateStats_undefined
              (filter (fun v => notNull v = true)
                 (map soilMoisture1
                    (filter (fun r => now - 24 * 3600000 <= timestamp r)
                            (sensorData st))))) as (stx & E & Ha & Hm).
  { apply list_elem_of_filter. split; [reflexivity|].
    rewrite <- Hsoil. apply list_elem_of_In, in_map.
    now apply list_elem_of_In. }
  rewrite getStats_unfold. cbn zeta. cbn [fst].
  rewrite (window_filter now 24 (sensorData st) ltac:(lia) Hb).
  destruct (filter _ (sensorData st)) as [|first rest] eqn:Ef;
    [now apply elem_of_nil in Hw|].
  eexists _, stx. split; [reflexivity|].
  cbn [statsSoilMoisture1]. auto.
Qed.

Lemma getStats_unset_soil_spoils_witness :
  let r :=
    mkReading 100000000 (JObj ∅) None None MUndefined MUndefined MUndefined
      JUndefined JUndefined JUndefined in
  let st := mkState [r] None in
  parseEcowittCloudData 100000000 (JObj ∅) = Some r
  /\ Z.abs (100000500 - 24 * 3600000) <= 8640000000000000
  /\ r ∈ sensorData st
  /\ 100000500 - 24 * 3600000 <= timestamp r
  /\ soilMoisture1 r = MUndefined
  /\ exists s stx,
       fst (getStats 100000500 None st) = StatsReport s
       /\ statsSoilMoisture1 s = Some stx
       /\ avg stx = NaN /\ max stx = MUndefined.
Proof.
  intros r st.
  assert (H1 : Z.abs (100000500 - 24 * 3600000) <= 8640000000000000) by lia.
  assert (H2 : r ∈ sensorData st) by apply list_elem_of_here.
  assert (H3 : 100000500 - 24 * 3600000 <= timestamp r)
    by (vm_compute; discriminate).
  assert (H4 : soilMoisture1 r = MUndefined) by reflexivity.
  split; [vm_compute; reflexivity|].
  split; [exact H1|]. split; [exact H2|]. split; [exact H3|].
  split; [exact H4|].
  exact (getStats_unset_soil_spoils 100000500 st r H1 H2 H3 H4).
Defined.

Lemma cutoffTime_NaN (now : Z) : cutoffTime now NaN = None.
Proof. reflexivity. Qed.

Lemma filter_none (l : list reading) :
  filter (fun r => notBefore None r = true) l = [].
Proof.
  induction l as [|r l IH]; [reflexivity|].
  rewrite filter_cons_False by discriminate. exact IH.
Qed.

Lemma sliceFrom_nil {A : Type} (start : num) : sliceFrom start (@nil A) = [].
Proof. unfold sliceFrom. apply drop_nil. Qed.

(** X6: an [hours] parameter that does not read as a number (such as
    "abc") empties the window: the statistics endpoint answers "no data"
    and the history endpoint returns no reading, whatever the store holds
    and whatever the limit. *)
Theorem hours_not_a_number (now : Z) (h : string) (limit : option string)
    (st : state) :
  toNumberString h = NaN ->
  fst (getStats now (Some h) st)
  = StatsNoData "No data available for this period"
  /\ fst (getHistory now limit (Some h) st) = mkHistory 0 [].
Proof.
  intros E. split.
  - rewrite getStats_unfold. cbn zeta. rewrite E, cutoffTime_NaN.
    now rewrite filter_none.
  - rewrite getHistory_unfold. cbn zeta. unfold filterByHours.
    assert (Hh : truthy (JStr h) = true).
    { apply truthy_JStr. intros ->. vm_compute in E. discriminate E. }
    rewrite Hh, E, cutoffTime_NaN, filter_none, sliceFrom_nil.
    reflexivity.
Qed.

Lemma hours_not_a_number_witness :
  let r :=
    mkReading 5 JNull (Some (ofZ 20)) None MNull MNull MNull
      JUndefined JUndefined JUndefined in
  toNumberString "abc" = NaN
  /\ fst (getStats 10 (Some "abc") (mkState [r] None))
     = StatsNoData "No data available for this period"
  /\ fst (getHistory 10 None (Some "abc") (mkState [r] None))
     = mkHistory 0 [].
Proof.
  intros r.
  assert (E : toNumberString "abc" = NaN) by (vm_compute; reflexivity).
  split; [exact E|].
  exact (hours_not_a_number 10 "abc" None (mkState [r] None) E).
Defined.

Lemma sliceFrom_drop {A : Type} (start : num) (l : list A) :
  exists k, sliceFrom start l = drop k l.
Proof. unfold sliceFrom. eauto. Qed.

Lemma getHistory_end_piece_of_window (now : Z) (limit hours : option string)
    (st : state) :
  exists k,
    historyReadings (fst (getHistory now limit hours st))
    = drop k (filterByHours now hours (sensorData st)).
Proof.
  rewrite getHistory_unfold. cbn zeta. cbn [fst historyReadings].
  apply sliceFrom_drop.
Qed.

(** X7: whatever its parameters, the history endpoint returns an end piece
    of the time-filtered history, so only stored readings, in the order of
    the store, and reports their number as its count; without a limit
    parameter that piece is the last 100 readings of the time-filtered
    history, or all of it when it holds fewer. *)
Theorem getHistory_end_piece (now : Z) (limit hours : option string)
    (st : state) :
  (exists k,
     historyReadings (fst (getHistory now limit hours st))
     = drop k (filterByHours now hours (sensorData st)))
  /\ historyReadings (fst (getHistory now limit hours st))
     `sublist_of` sensorData st
  /\ historyCount (fst (getHistory now limit hours st))
     = length (historyReadings (fst (getHistory now limit hours st)))
  /\ historyReadings (fst (getHistory now None hours st))
     = drop (length (filterByHours now hours (sensorData st)) - 100)
            (filterByHours now hours (sensorData st))
  /\ (historyCount (fst (getHistory now None hours st)) <= 100)%nat
  /\ snd (getHistory now limit hours st) = st.
Proof.
  rewrite !getHistory_unfold. cbn zeta. cbn [fst snd historyReadings historyCount].
  set (window := filterByHours now hours (sensorData st)).
  assert (Hdefault : sliceFrom (Num.opp (ofZ 100)) window
                     = drop (length window - 100) window).
  { rewrite opp_ofZ, sliceFrom_ofZ.
    change (- (100) <? 0) with true. cbv iota. f_equal. lia. }
  split; [apply sliceFrom_drop|].
  split.
  { destruct (sliceFrom_drop
                (Num.opp match limit with
                         | Some s => parseIntString s
                         | None => ofZ 100
                         end) window) as (k & ->).
    etransitivity; [apply sublist_drop|apply filterByHours_sublist]. }
  split; [reflexivity|]. split; [exact Hdefault|].
  split; [|reflexivity].
  rewrite Hdefault, length_drop. lia.
Qed.

(** ** Ingestion and the reads that follow it *)

Lemma capacity_positive : (1 <= MAX_READINGS)%nat.
Proof. apply Nat.leb_le. reflexivity. Qed.

Lemma pushReading_last (r : reading) (st : state) :
  lastReading (sensorData (snd (pushReading r st))) = Some r.
Proof.
  rewrite pushReading_sensorData. unfold lastReading.
  destruct (MAX_READINGS <? length (sensorData st ++ [r]))%nat eqn:E;
    [|apply last_snoc].
  apply Nat.ltb_lt in E. rewrite length_app in E. cbn [length] in E.
  pose proof capacity_positive.
  destruct (sensorData st) as [|x l]; [cbn [length] in E; lia|].
  cbn [app tail]. apply last_snoc.
Qed.

Lemma parseEcowittData_timestamp (now : Z) (data : jsval) (parsed : reading) :
  parseEcowittData now data = Some parsed -> timestamp parsed = now.
Proof.
  intros E. apply parseEcowittData_Some in E as (_ & _ & _ & ->).
  reflexivity.
Qed.

(** X8: a webhook payload that passes the storage test is what the read
    endpoints show next: the latest reading is the reading parsed from it,
    the health endpoint reports its timestamp as the last update and the
    size of the store as the total, and the debug endpoint shows the raw
    payload and the parsed reading. *)
Theorem posted_reading_is_latest (now later : Z) (body : jsval) (st : state)
    (parsed : reading) :
  parseEcowittData now body = Some parsed ->
  hasSensorData parsed = true ->
  fst (getLatest (snd (postEcowitt now body st))) = LatestReading parsed
  /\ fst (getHealth later (snd (postEcowitt now body st)))
     = mkHealth later
         (length (sensorData (snd (postEcowitt now body st)))) (Some now)
  /\ fst (getDebug (snd (postEcowitt now body st)))
     = mkDebug (Some (mkRaw now None body))
         (length (sensorData (snd (postEcowitt now body st)))) (Some parsed)
  /\ (1 <= length (sensorData (snd (postEcowitt now body st))))%nat.
Proof.
  intros E Hs. rewrite postEcowitt_unfold. cbn zeta. rewrite E, Hs.
  cbn [snd].
  set (st1 := {| sensorData := sensorData st;
                 lastRawData := Some (mkRaw now None body) |}).
  pose proof (pushReading_last parsed st1) as Hlast.
  pose proof (pushReading_lastRawData parsed st1) as Hraw.
  unfold getLatest, getHealth, getDebug, mbind, M_bind, getSensorData, mret,
    M_ret. cbn [fst].
  rewrite Hlast, Hraw. cbn [fmap option_fmap option_map].
  rewrite (parseEcowittData_timestamp now body parsed E).
  split; [reflexivity|]. split; [reflexivity|]. split; [reflexivity|].
  unfold lastReading in Hlast.
  destruct (sensorData (snd (pushReading parsed st1)));
    [discriminate|cbn [length]; lia].
Qed.

Lemma posted_reading_is_latest_witness :
  let body : jsval := JObj {[ "soilmoisture1" := JStr "41" ]} in
  let parsed :=
    mkReading 7 body None None (MNum (ofZ 41)) MNull MNull
      (JStr "Unknown") (JStr "Unknown") JUndefined in
  parseEcowittData 7 body = Some parsed
  /\ hasSensorData parsed = true
  /\ fst (getLatest (snd (postEcowitt 7 body initialState)))
     = LatestReading parsed.
Proof.
  intros body parsed.
  assert (E : parseEcowittData 7 body = Some parsed)
    by (vm_compute; reflexivity).
  assert (Hs : hasSensorData parsed = true) by reflexivity.
  split; [exact E|]. split; [exact Hs|].
  exact (proj1 (posted_reading_is_latest 7 0 body initialState parsed E Hs)).
Defined.

Lemma flatTemperature_defined (data : jsval) :
  defined (flatTemperature data)
  = existsb (fun k => truthy (prop data k))
      ["tempf"; "temp1f"; "tempinf"; "temp"].
Proof.
  unfold flatTemperature. cbn [existsb].
  destruct (truthy (prop data "tempf")), (truthy (prop data "temp1f")),
    (truthy (prop data "tempinf")), (truthy (prop data "temp")); reflexivity.
Qed.

Lemma firstTruthy_notNull (data : jsval) (names : list string) :
  notNull (firstTruthy data names)
  = existsb (fun k => truthy (prop data k)) names.
Proof.
  induction names as [|k names IH]; [reflexivity|].
  cbn [firstTruthy existsb].
  destruct (truthy (prop data k)); [reflexivity|exact IH].
Qed.

Lemma hasSensorData_flat (now : Z) (data : jsval) (parsed : reading) :
  parseEcowittData now data = Some parsed ->
  hasSensorData parsed
  = existsb (fun k => truthy (prop data k)) metricFieldNames.
Proof.
  intros E.
  destruct (parseEcowittData_fields now data parsed E) as (Ht & H1 & H2 & Hl).
  unfold hasSensorData. rewrite Ht, H1, H2, Hl.
  rewrite flatTemperature_defined, !firstTruthy_notNull.
  unfold metricFieldNames. cbn [existsb].
  now rewrite !orb_false_r, !orb_assoc.
Qed.



Lemma ingestCloud_success (now : Z) (data : jsval) (st : state) :
  isZero (prop data "code") && truthy (prop data "data") = true ->
  ingestCloud now data st =
    let st1 :=
      {| sensorData := sensorData st;
         lastRawData :=
           Some (mkRaw now (Some "ecowitt-cloud") (prop data "data")) |} in
    match parseEcowittCloudData now (prop data "data") with
    | Some parsed => pushReading parsed st1
    | None => (tt, st1)
    end.
Proof.
  intros E. unfold ingestCloud.
  destruct data; try (cbn in E; discriminate E);
    rewrite E; unfold mbind, M_bind, setLastRawData; cbn zeta;
    (destruct (parseEcowittCloudData now _) as [parsed|] eqn:Ep;
     [rewrite (cloud_reading_passes_storage_test _ _ _ Ep)|]); reflexivity.
Qed.

Lemma ingestCloud_failure (now : Z) (data : jsval) (st : state) :
  isZero (prop data "code") && truthy (prop data "data") = false ->
  ingestCloud now data st = (tt, st).
Proof.
  intros E. unfold ingestCloud.
  destruct data; try reflexivity; rewrite E; reflexivity.
Qed.

Lemma parseEcowittCloudData_timestamp (now : Z) (data : jsval)
    (parsed : reading) :
  parseEcowittCloudData now data = Some parsed -> timestamp parsed = now.
Proof. intros E. cloud_fields E. Qed.



(** ** More on the flat normaliser *)

Lemma firstTruthy_skip (data : jsval) (k : string) (rest : list string) :
  truthy (prop data k) = false ->
  firstTruthy data (k :: rest) = firstTruthy data rest.
Proof. intros E. cbn [firstTruthy]. now rewrite E. Qed.

Lemma firstTruthy_take (data : jsval) (k : string) (rest : list string) :
  truthy (prop data k) = true ->
  firstTruthy data (k :: rest) = MNum (parseFloat (prop data k)).
Proof. intros E. cbn [firstTruthy]. now rewrite E. Qed.

(** X11: a soil or leaf metric of a flat payload is read, unconverted,
    from the first of its synonyms that is present (truthy): from the
    primary field when that is present, and otherwise from the next
    synonym, a synonym that is absent, empty or zero being passed over;
    the metric is null exactly when no synonym is present. *)
Theorem flat_metric_fallback (now : Z) (data : jsval) (parsed : reading) :
  parseEcowittData now data = Some parsed ->
  (truthy (prop data "soilmoisture1") = true ->
     soilMoisture1 parsed = MNum (parseFloat (prop data "soilmoisture1")))
  /\ (truthy (prop data "soilmoisture2") = true ->
     soilMoisture2 parsed = MNum (parseFloat (prop data "soilmoisture2")))
  /\ (truthy (prop data "leafwetness_ch1") = true ->
     leafWetness parsed = MNum (parseFloat (prop data "leafwetness_ch1")))
  /\ (truthy (prop data "soilmoisture1") = false ->
      truthy (prop data "soilhum1") = true ->
     soilMoisture1 parsed = MNum (parseFloat (prop data "soilhum1")))
  /\ (truthy (prop data "soilmoisture2") = false ->
      truthy (prop data "soilhum2") = true ->
     soilMoisture2 parsed = MNum (parseFloat (prop data "soilhum2")))
  /\ (truthy (prop data "leafwetness_ch1") = false ->
      truthy (prop data "leafwetness1") = true ->
     leafWetness parsed = MNum (parseFloat (prop data "leafwetness1")))
  /\ (truthy (prop data "leafwetness_ch1") = false ->
      truthy (prop data "leafwetness1") = false ->
      truthy (prop data "leafwet_ch1") = true ->
     leafWetness parsed = MNum (parseFloat (prop data "leafwet_ch1")))
  /\ (soilMoisture1 parsed = MNull <->
      truthy (prop data "soilmoisture1") = false
      /\ truthy (prop data "soilhum1") = false)
  /\ (soilMoisture2 parsed = MNull <->
      truthy (prop data "soilmoisture2") = false
      /\ truthy (prop data "soilhum2") = false)
  /\ (leafWetness parsed = MNull <->
      truthy (prop data "leafwetness_ch1") = false
      /\ truthy (prop data "leafwetness1") = false
      /\ truthy (prop data "leafwet_ch1") = false).
Proof.
  intros E.
  destruct (parseEcowittData_fields now data parsed E) as (_ & H1 & H2 & Hl).
  rewrite H1, H2, Hl. cbn [firstTruthy].
  split; [now intros ->|]. split; [now intros ->|].
  split; [now intros ->|].
  split; [now intros -> ->|]. split; [now intros -> ->|].
  split; [now intros -> ->|]. split; [now intros -> -> ->|].
  split; [|split].
  - destruct (truthy (prop data "soilmoisture1")),
      (truthy (prop data "soilhum1")); split;
      (discriminate || tauto || (intros (? & ?); discriminate)).
  - destruct (truthy (prop data "soilmoisture2")),
      (truthy (prop data "soilhum2")); split;
      (discriminate || tauto || (intros (? & ?); discriminate)).
  - destruct (truthy (prop data "leafwetness_ch1")),
      (truthy (prop data "leafwetness1")),
      (truthy (prop data "leafwet_ch1")); split;
      (discriminate || tauto || (intros (? & ? & ?); discriminate)).
Qed.

Lemma flat_metric_fallback_witness :
  let data : jsval :=
    JObj {[ "soilmoisture1" := JStr ""; "soilhum1" := JStr "45" ]} in
  let parsed :=
    mkReading 0 data None None (MNum (ofZ 45)) MNull MNull
      (JStr "Unknown") (JStr "Unknown") JUndefined in
  parseEcowittData 0 data = Some parsed
  /\ truthy (prop data "soilmoisture1") = false
  /\ truthy (prop data "soilhum1") = true
  /\ soilMoisture1 parsed = MNum (parseFloat (prop data "soilhum1")).
Proof.
  intros data parsed.
  assert (E : parseEcowittData 0 data = Some parsed)
    by (vm_compute; reflexivity).
  assert (H1 : truthy (prop data "soilmoisture1") = false)
    by (vm_compute; reflexivity).
  assert (H2 : truthy (prop data "soilhum1") = true)
    by (vm_compute; reflexivity).
  split; [exact E|]. split; [exact H1|]. split; [exact H2|].
  destruct (flat_metric_fallback 0 data parsed E) as (_ & _ & _ & H & _).
  exact (H H1 H2).
Defined.

Lemma jsOr_truthy_r (a b : jsval) : truthy b = true -> truthy (jsOr a b) = true.
Proof. intros Hb. unfold jsOr. now destruct (truthy a) eqn:Ea. Qed.

Lemma jsOr_left (a b : jsval) : truthy a = true -> jsOr a b = a.
Proof. intros H. unfold jsOr. now rewrite H. Qed.

Lemma jsOr_right (a b : jsval) : truthy a = false -> jsOr a b = b.
Proof. intros H. unfold jsOr. now rewrite H. Qed.

(** X12: the station type and the pass key of a flat reading are never
    missing or empty: each is a present (truthy) value of the payload or
    the text "Unknown", the pass key being taken from PASSKEY, else
    passkey, else ID. *)
Theorem flat_identity_fields (now : Z) (data : jsval) (parsed : reading) :
  parseEcowittData now data = Some parsed ->
  truthy (stationtype parsed) = true
  /\ truthy (passkey parsed) = true
  /\ (stationtype parsed = prop data "stationtype"
      \/ stationtype parsed = JStr "Unknown")
  /\ (truthy (prop data "PASSKEY") = true ->
      passkey parsed = prop data "PASSKEY")
  /\ (truthy (prop data "PASSKEY") = false ->
      truthy (prop data "passkey") = true ->
      passkey parsed = prop data "passkey")
  /\ (truthy (prop data "PASSKEY") = false ->
      truthy (prop data "passkey") = false ->
      truthy (prop data "ID") = true ->
      passkey parsed = prop data "ID")
  /\ (truthy (prop data "PASSKEY") = false ->
      truthy (prop data "passkey") = false ->
      truthy (prop data "ID") = false ->
      passkey parsed = JStr "Unknown").
Proof.
  intros E.
  assert (Es : stationtype parsed
               = jsOr (prop data "stationtype") (JStr "Unknown")
               /\ passkey parsed
                  = jsOr (jsOr (jsOr (prop data "PASSKEY")
                                     (prop data "passkey"))
                               (prop data "ID")) (JStr "Unknown")).
  { apply parseEcowittData_Some in E as (_ & _ & _ & ->).
    split; reflexivity. }
  destruct Es as (-> & ->).
  split; [now apply jsOr_truthy_r|]. split; [now apply jsOr_truthy_r|].
  split.
  { unfold jsOr. destruct (truthy (prop data "stationtype")); auto. }
  split.
  { intros H. rewrite (jsOr_left (prop data "PASSKEY")) by exact H.
    rewrite (jsOr_left (prop data "PASSKEY")) by exact H.
    now apply jsOr_left. }
  split.
  { intros H1 H2. rewrite (jsOr_right (prop data "PASSKEY")) by exact H1.
    rewrite (jsOr_left (prop data "passkey")) by exact H2.
    now apply jsOr_left. }
  split.
  - intros H1 H2 H3. rewrite (jsOr_right (prop data "PASSKEY")) by exact H1.
    rewrite (jsOr_right (prop data "passkey")) by exact H2.
    now apply jsOr_left.
  - intros H1 H2 H3. rewrite (jsOr_right (prop data "PASSKEY")) by exact H1.
    rewrite (jsOr_right (prop data "passkey")) by exact H2.
    now apply jsOr_right.
Qed.

Lemma flat_identity_fields_witness :
  let data : jsval := JObj {[ "ID" := JStr "vineyard-7" ]} in
  let parsed :=
    mkReading 0 data None None MNull MNull MNull
      (JStr "Unknown") (JStr "vineyard-7") JUndefined in
  parseEcowittData 0 data = Some parsed
  /\ truthy (stationtype parsed) = true
  /\ truthy (passkey parsed) = true.
Proof.
  intros data parsed.
  assert (E : parseEcowittData 0 data = Some parsed)
    by (vm_compute; reflexivity).
  split; [exact E|].
  destruct (flat_identity_fields 0 data parsed E) as (H1 & H2 & _).
  split; assumption.
Defined.

(** ** More on the alerts *)

Lemma ltb_Fin (a b : Q) : (Fin a <? Fin b)%num = true <-> (a < b)%Q.
Proof.
  cbn [Num.ltb]. destruct (a ?= b)%Q eqn:C.
  - apply Qeq_alt in C. split; [discriminate|lra].
  - apply Qlt_alt in C. tauto.
  - apply Qgt_alt in C. split; [discriminate|lra].
Qed.

Lemma ltb_Fin_false (a b : Q) : (Fin a <? Fin b)%num = false <-> (b <= a)%Q.
Proof.
  pose proof (ltb_Fin a b) as H.
  destruct (Fin a <? Fin b)%num.
  - split; [discriminate|]. intros Hle.
    assert (a < b)%Q by now apply H. lra.
  - split; [|reflexivity]. intros _.
    destruct (Qlt_le_dec a b) as [Hlt|Hle]; [|exact Hle].
    apply H in Hlt. discriminate.
Qed.

Lemma temperatureAlerts_nil (r : reading) :
  temperatureAlerts r = [] <-> quietTemperature (temperature r).
Proof.
  unfold temperatureAlerts, quietTemperature, Num.gtb,
    ranges_temperature_critical_min, ranges_temperature_critical_max,
    ranges_temperature_min, ranges_temperature_max, ofZ.
  destruct (temperature r) as [[| | |t]|].
  - split; [auto|reflexivity].
  - split; [discriminate|].
    intros [H|[H|(t & H & _)]]; discriminate H.
  - split; [discriminate|].
    intros [H|[H|(t & H & _)]]; discriminate H.
  - change (inject_Z 10) with 10%Q. change (inject_Z 35) with 35%Q.
    change (inject_Z 18) with 18%Q. change (inject_Z 25) with 25%Q.
    destruct (Fin t <? Fin 10)%num eqn:E1, (Fin 35 <? Fin t)%num eqn:E2,
      (Fin t <? Fin 18)%num eqn:E3, (Fin 25 <? Fin t)%num eqn:E4;
      cbn [orb];
      rewrite ?ltb_Fin, ?ltb_Fin_false in *;
      (split;
       [try discriminate; intros _; right; right; exists t;
        repeat split; lra
       |first
          [reflexivity
          |intros [H|[H|(t' & H & Hlo & Hhi)]];
           [discriminate H|discriminate H|injection H as <-; lra]]]).
  - split; [auto|reflexivity].
Qed.

Lemma soilAlerts_nil (r : reading) (sensor : nat) (m : metric) :
  (sensor = 1%nat /\ soilMoisture1 r = m)
  \/ (sensor = 2%nat /\ soilMoisture2 r = m) ->
  soilAlerts r sensor = [] <-> quietSoil m.
Proof.
  intros Hm.
  assert (E : soilAlerts r sensor =
    match m with
    | MNum moisture =>
        if (moisture <? ofZ 20)%num || (ofZ 80 <? moisture)%num then
          [ mkAlert (soilMetricName sensor) moisture "critical"
              (SoilCritically sensor (moisture <? ofZ 20)%num moisture) ]
        else if (moisture <? ofZ 30)%num || (ofZ 60 <? moisture)%num then
          [ mkAlert (soilMetricName sensor) moisture "warning"
              (SoilOutsideIdeal sensor moisture) ]
        else []
    | _ => []
    end).
  { destruct Hm as [(-> & <-)|(-> & <-)]; reflexivity. }
  rewrite E. clear E Hm. unfold quietSoil, ofZ.
  destruct m as [| |[| | |v]].
  - split; [auto|reflexivity].
  - split; [auto|reflexivity].
  - split; [auto|reflexivity].
  - split; [discriminate|].
    intros [H|[H|[H|(v & H & _)]]]; discriminate H.
  - split; [discriminate|].
    intros [H|[H|[H|(v & H & _)]]]; discriminate H.
  - change (inject_Z 20) with 20%Q. change (inject_Z 80) with 80%Q.
    change (inject_Z 30) with 30%Q. change (inject_Z 60) with 60%Q.
    destruct (Fin v <? Fin 20)%num eqn:E1, (Fin 80 <? Fin v)%num eqn:E2,
      (Fin v <? Fin 30)%num eqn:E3, (Fin 60 <? Fin v)%num eqn:E4;
      cbn [orb];
      rewrite ?ltb_Fin, ?ltb_Fin_false in *;
      (split;
       [try discriminate; intros _; right; right; right; exists v;
        repeat split; lra
       |first
          [reflexivity
          |intros [H|[H|[H|(v' & H & Hlo & Hhi)]]];
           [discriminate H|discriminate H|discriminate H
           |injection H as <-; lra]]]).
Qed.

Lemma leafAlerts_nil (r : reading) :
  leafAlerts r = [] <-> quietLeaf (leafWetness r).
Proof.
  unfold leafAlerts, quietLeaf, Num.gtb, ranges_leafWetness_critical_max,
    ranges_leafWetness_max, ofZ.
  destruct (leafWetness r) as [| |[| | |v]].
  - split; [auto|reflexivity].
  - split; [auto|reflexivity].
  - split; [auto|reflexivity].
  - split; [discriminate|].
    intros [H|[H|[H|[H|(v & H & _)]]]]; discriminate H.
  - split; [auto 6|reflexivity].
  - change (inject_Z 85) with 85%Q. change (inject_Z 70) with 70%Q.
    destruct (Fin 85 <? Fin v)%num eqn:E1, (Fin 70 <? Fin v)%num eqn:E2;
      rewrite ?ltb_Fin, ?ltb_Fin_false in *;
      (split;
       [first
          [discriminate
          |intros _; right; right; right; right; exists v;
           split; [reflexivity|lra]]
       |first
          [reflexivity
          |intros [H|[H|[H|[H|(v' & H & Hhi)]]]];
           [discriminate H|discriminate H|discriminate H|discriminate H
           |injection H as <-; lra]]]).
Qed.

(** X13: the alert list of a reading is empty exactly when every monitored
    metric is quiet: absent, not a number, or inside its ideal band (18 to
    25 for the temperature, 30 to 60 for the soil moistures, at most 70 for
    the leaf wetness, which has no lower bound).  In particular a metric
    that could not be read as a number never raises an alert. *)
Theorem evaluate_nil_iff_quiet (r : reading) :
  evaluate r = [] <->
  quietTemperature (temperature r) /\ quietSoil (soilMoisture1 r)
  /\ quietSoil (soilMoisture2 r) /\ quietLeaf (leafWetness r).
Proof.
  rewrite <- temperatureAlerts_nil, <- leafAlerts_nil.
  rewrite <- (soilAlerts_nil r 1 (soilMoisture1 r)) by (left; auto).
  rewrite <- (soilAlerts_nil r 2 (soilMoisture2 r)) by (right; auto).
  split.
  - intros E. pose proof (evaluate_perm r) as Hperm. rewrite E in Hperm.
    apply Permutation_nil_l in Hperm. symmetry in Hperm.
    apply app_eq_nil in Hperm as (H1 & Hperm).
    apply app_eq_nil in Hperm as (H2 & Hperm).
    apply app_eq_nil in Hperm as (H3 & H4). auto.
  - intros (H1 & H2 & H3 & H4).
    apply Permutation_nil_r. rewrite evaluate_perm, H1, H2, H3, H4.
    reflexivity.
Qed.

Lemma metrics_of_collectAlerts (r : reading) :
  alertMetric <$> collectAlerts r
  `sublist_of` ["temperature"; "soilMoisture1"; "soilMoisture2"; "leafWetness"].
Proof.
  unfold collectAlerts, temperatureAlerts, soilAlerts, leafAlerts.
  cbn [flat_map].
  destruct (temperature r), (soilMoisture1 r), (soilMoisture2 r),
    (leafWetness r); split_ifs; cbn;
    repeat first [apply sublist_nil|apply sublist_skip|apply sublist_cons].
Qed.

Lemma getAlerts_unfold (st : state) :
  getAlerts st =
    (match lastReading (sensorData st) with
     | None => AlertsNoData "No data available yet"
     | Some latest =>
         Alerts (length (collectAlerts latest)) (evaluate latest)
           (timestamp latest)
     end, st).
Proof.
  unfold getAlerts, mbind, M_bind, getSensorData, mret, M_ret.
  now destruct (lastReading (sensorData st)).
Qed.

(** X14: the alerts endpoint answers "no data" exactly for an empty store;
    otherwise its list comes from the most recent reading, carries that
    reading's timestamp, has as many entries as the count says, at most
    four, with at most one alert per metric and no warning before a
    critical alert. *)
Theorem getAlerts_shape (st : state) :
  match fst (getAlerts st) with
  | AlertsNoData _ => sensorData st = []
  | Alerts n l t =>
      exists latest older,
        sensorData st = older ++ [latest]
        /\ t = timestamp latest
        /\ l ≡ₚ collectAlerts latest
        /\ n = length l /\ (n <= 4)%nat
        /\ NoDup (alertMetric <$> l)
        /\ criticalFirst l = true
  end.
Proof.
  rewrite getAlerts_unfold. cbn [fst]. unfold lastReading.
  destruct (last (sensorData st)) as [latest|] eqn:E.
  2:{ now apply last_None in E. }
  apply last_Some in E as (older & E).
  exists latest, older. split; [exact E|]. split; [reflexivity|].
  pose proof (arraySort_perm bySeverity (collectAlerts latest)) as Hperm.
  fold (evaluate latest) in Hperm.
  pose proof (metrics_of_collectAlerts latest) as Hsub.
  split; [exact Hperm|]. split; [now rewrite Hperm|].
  split.
  - apply sublist_length in Hsub. rewrite length_fmap in Hsub.
    cbn [length] in Hsub. exact Hsub.
  - split; [|apply evaluate_criticalFirst].
    rewrite Hperm. eapply sublist_NoDup; [|exact Hsub].
    repeat (apply NoDup_cons; split;
              [rewrite ?elem_of_cons, elem_of_nil; intuition discriminate|]).
    apply NoDup_nil_2.
Qed.

Lemma evaluate_nil_iff_quiet_witness :
  let r :=
    mkReading 0 JNull (Some NaN) None (MNum (Fin 45)) MNull (MNum (Fin 3))
      JUndefined JUndefined JUndefined in
  quietTemperature (temperature r) /\ quietSoil (soilMoisture1 r)
  /\ quietSoil (soilMoisture2 r) /\ quietLeaf (leafWetness r)
  /\ evaluate r = [].
Proof.
  intros r.
  assert (H1 : quietTemperature (temperature r)) by (right; left; reflexivity).
  assert (H2 : quietSoil (soilMoisture1 r)).
  { right; right; right. exists 45%Q. repeat split; discriminate. }
  assert (H3 : quietSoil (soilMoisture2 r)) by (right; left; reflexivity).
  assert (H4 : quietLeaf (leafWetness r)).
  { right; right; right; right. exists 3%Q. split; [reflexivity|discriminate]. }
  split; [exact H1|]. split; [exact H2|]. split; [exact H3|].
  split; [exact H4|].
  apply (proj2 (evaluate_nil_iff_quiet r)). auto.
Defined.

(** ** The order of the store *)

Lemma handle_cases (req : request) (st : state) :
  sensorData (handle req st) = sensorData st
  \/ exists r k,
       timestamp r = requestTime req
       /\ sensorData (handle req st) = drop k (sensorData st ++ [r]).
Proof.
  assert (Hpush : forall r st1, sensorData st1 = sensorData st ->
            exists k, sensorData (snd (pushReading r st1))
                      = drop k (sensorData st ++ [r])).
  { intros r st1 E. rewrite pushReading_sensorData, E.
    destruct (MAX_READINGS <? length (sensorData st ++ [r]))%nat.
    - exists 1%nat. now destruct (sensorData st ++ [r]).
    - now exists 0%nat. }
  destruct req as [t body|t data|t l h|t op]; cbn [handle requestTime].
  - rewrite postEcowitt_unfold. cbn zeta.
    destruct (parseEcowittData t body) as [parsed|] eqn:E; [|now left].
    destruct (hasSensorData parsed); [|now left].
    right. cbn [snd].
    destruct (Hpush parsed {| sensorData := sensorData st;
                              lastRawData := Some (mkRaw t None body) |}
                eq_refl) as (k & Hk).
    exists parsed, k. split; [|exact Hk].
    now apply (parseEcowittData_timestamp t body).
  - destruct (ingestCloud_unfold t data st) as [-> | [(p & Ep & ->) | ->]];
      [now left| |now left].
    right.
    destruct (Hpush p
                {| sensorData := sensorData st;
                   lastRawData :=
                     Some (mkRaw t (Some "ecowitt-cloud")
                             (prop data "data")) |} eq_refl) as (k & Hk).
    exists p, k.
    split; [exact (parseEcowittCloudData_timestamp _ _ _ Ep)|exact Hk].
  - now left.
  - left. now rewrite runRead_state.
Qed.

Lemma StronglySorted_drop {A : Type} (R : relation A) (k : nat) (l : list A) :
  StronglySorted R l -> StronglySorted R (drop k l).
Proof.
  intros H. rewrite <- (take_drop k l) in H.
  eapply StronglySorted_app_1_r; exact H.
Qed.

Lemma handle_chronological (req : request) (st : state) (t : Z) :
  StronglySorted Z.le (storeTimes st) ->
  Forall (fun x => x <= t) (storeTimes st) ->
  t <= requestTime req ->
  StronglySorted Z.le (storeTimes (handle req st))
  /\ Forall (fun x => x <= requestTime req) (storeTimes (handle req st)).
Proof.
  intros Hs Hle Ht. unfold storeTimes in *.
  destruct (handle_cases req st) as [-> | (r & k & Er & ->)].
  - split; [exact Hs|]. eapply Forall_impl; [exact Hle|]. cbn. lia.
  - rewrite fmap_drop, fmap_app. cbn [fmap list_fmap]. rewrite Er.
    assert (Hall : Forall (fun x => x <= requestTime req)
                     ((timestamp <$> sensorData st) ++ [requestTime req])).
    { apply Forall_app. split.
      - eapply Forall_impl; [exact Hle|]. cbn. lia.
      - repeat constructor. lia. }
    split.
    + apply StronglySorted_drop. apply StronglySorted_app_2.
      * intros x1 x2 H1 H2. apply list_elem_of_singleton in H2 as ->.
        rewrite Forall_forall in Hle. specialize (Hle x1 H1). lia.
      * exact Hs.
      * repeat constructor.
    + rewrite <- (take_drop k) in Hall. now apply Forall_app in Hall.
Qed.

Lemma serve_from_chronological (reqs : list request) : forall st t,
  StronglySorted Z.le (storeTimes st) ->
  Forall (fun x => x <= t) (storeTimes st) ->
  Forall (fun req => t <= requestTime req) reqs ->
  StronglySorted Z.le (requestTime <$> reqs) ->
  StronglySorted Z.le
    (storeTimes (fold_left (fun st req => handle req st) reqs st)).
Proof.
  induction reqs as [|req reqs IH]; intros st t Hs Hle Hreqs Hsorted;
    cbn [fold_left]; [exact Hs|].
  apply Forall_cons in Hreqs as (Ht & _).
  rewrite fmap_cons in Hsorted.
  apply StronglySorted_cons in Hsorted as (Hhd & Htl).
  destruct (handle_chronological req st t Hs Hle Ht) as (Hs' & Hle').
  apply (IH _ (requestTime req)); auto.
  rewrite Forall_fmap in Hhd. exact Hhd.
Qed.

(** X15: when the clock never runs backwards between requests, the store
    is in chronological order: the timestamps of the stored readings,
    oldest first, never decrease. *)
Theorem store_is_chronological (reqs : list request) :
  StronglySorted Z.le (requestTime <$> reqs) ->
  StronglySorted Z.le (storeTimes (serve reqs)).
Proof.
  intros Hsorted. unfold serve.
  destruct reqs as [|req reqs]; [constructor|].
  apply (serve_from_chronological (req :: reqs) initialState
           (requestTime req)).
  - constructor.
  - constructor.
  - rewrite fmap_cons in Hsorted.
    apply StronglySorted_cons in Hsorted as (Hhd & _).
    constructor; [lia|]. rewrite Forall_fmap in Hhd. exact Hhd.
  - exact Hsorted.
Qed.

Lemma store_is_chronological_witness :
  let reqs :=
    [PostEcowitt 10 (JObj {[ "tempf" := JStr "68" ]});
     Read 12 ReadLatest;
     CloudResponse 15
       (JObj {[ "code" := JNum (ofZ 0); "data" := JObj ∅ ]})] in
  StronglySorted Z.le (requestTime <$> reqs)
  /\ storeTimes (serve reqs) = [10; 15]
  /\ StronglySorted Z.le (storeTimes (serve reqs)).
Proof.
  intros reqs.
  assert (H : StronglySorted Z.le (requestTime <$> reqs)).
  { cbn.
    repeat first [apply SSorted_nil|apply SSorted_cons|apply Forall_nil_2
                 |apply Forall_cons_2|lia]. }
  split; [exact H|]. split; [vm_compute; reflexivity|].
  exact (store_is_chronological reqs H).
Defined.

Lemma filter_from_sorted (c : Z) (l : list reading) :
  StronglySorted Z.le (timestamp <$> l) ->
  exists k, filter (fun r => c <= timestamp r) l = drop k l.
Proof.
  induction l as [|r l IH]; intros Hs; [now exists 0%nat|].
  rewrite fmap_cons in Hs. apply StronglySorted_cons in Hs as (Hhd & Htl).
  destruct (decide (c <= timestamp r)) as [Hr|Hr].
  - exists 0%nat. cbn [drop].
    assert (Hall : Forall (fun r => c <= timestamp r) (r :: l)).
    { constructor; [exact Hr|]. rewrite Forall_fmap in Hhd.
      eapply Forall_impl; [exact Hhd|]. cbn. lia. }
    clear -Hall. induction Hall as [|x l' Hx _ IHl]; [reflexivity|].
    rewrite filter_cons_True by exact Hx. now f_equal.
  - destruct (IH Htl) as (k & Hk). exists (S k).
    rewrite filter_cons_False by exact Hr. exact Hk.
Qed.

(** X16: on a store in chronological order the history endpoint returns an
    end piece of the store itself: the most recent readings, with none
    left out in between, whatever the limit and the hours. *)
Theorem getHistory_most_recent (now : Z) (limit hours : option string)
    (st : state) :
  StronglySorted Z.le (storeTimes st) ->
  exists k,
    historyReadings (fst (getHistory now limit hours st))
    = drop k (sensorData st).
Proof.
  intros Hs.
  destruct (getHistory_end_piece_of_window now limit hours st) as (k1 & ->).
  assert (Hw : exists k2, filterByHours now hours (sensorData st)
                          = drop k2 (sensorData st)).
  { unfold filterByHours. destruct hours as [h|]; [|now exists 0%nat].
    destruct (truthy (JStr h)); [|now exists 0%nat].
    destruct (cutoffTime now (toNumberString h)) as [c|].
    - destruct (filter_from_sorted c (sensorData st) Hs) as (k & Hk).
      exists k. rewrite <- Hk. apply list_filter_iff. intros r.
      cbn [notBefore]. apply Z.leb_le.
    - exists (length (sensorData st)).
      now rewrite filter_none, drop_all. }
  destruct Hw as (k2 & ->). exists (k2 + k1)%nat. apply drop_drop.
Qed.

Lemma getHistory_most_recent_witness :
  let r := fun t =>
    mkReading t JNull (Some (ofZ 20)) None MNull MNull MNull
      JUndefined JUndefined JUndefined in
  let st := mkState [r 1; r 2; r 3] None in
  StronglySorted Z.le (storeTimes st)
  /\ exists k,
       historyReadings (fst (getHistory 10 (Some "2") None st))
       = drop k (sensorData st).
Proof.
  intros r st.
  assert (H : StronglySorted Z.le (storeTimes st)).
  { cbn.
    repeat first [apply SSorted_nil|apply SSorted_cons|apply Forall_nil_2
                 |apply Forall_cons_2|lia]. }
  split; [exact H|].
  exact (getHistory_most_recent 10 (Some "2") None st H).
Defined.

(** ** Insights *)

Lemma recentData_drop (l : list reading) :
  recentData l = drop (length l - 50) l.
Proof.
  unfold recentData. rewrite sliceFrom_ofZ.
  change (-50 <? 0) with true. cbv iota. f_equal. lia.
Qed.

Lemma averageOf_nil : averageOf [] = NaN.
Proof. reflexivity. Qed.

Lemma trendOf_nil : trendOf [] = NaN.
Proof. reflexivity. Qed.

(** X17: the insights handler answers "need more data" exactly when the
    store holds fewer than ten readings; otherwise it works on the latest
    reading and on the last 50 readings of the store (all of them when
    there are fewer), and counts as high leaf wetness at most as many
    readings as that window holds.  It never changes the state. *)
Theorem prepareInsights_window (st : state) :
  snd (prepareInsights st) = st
  /\ match fst (prepareInsights st) with
     | NeedMoreData _ => (length (sensorData st) < 10)%nat
     | Figures latest n stats =>
         (10 <= length (sensorData st))%nat
         /\ latest = last (sensorData st)
         /\ recentData (sensorData st)
            = drop (length (sensorData st) - 50) (sensorData st)
         /\ n = Nat.min 50 (length (sensorData st))
         /\ stats = insightFigures (sensorData st)
         /\ (highLeafCount stats <= n)%nat
     end.
Proof.
  unfold prepareInsights, mbind, M_bind, getSensorData, mret, M_ret.
  destruct (length (sensorData st) <? 10)%nat eqn:E; cbn [fst snd].
  - split; [reflexivity|]. now apply Nat.ltb_lt in E.
  - apply Nat.ltb_ge in E. split; [reflexivity|].
    split; [exact E|]. split; [reflexivity|].
    split; [apply recentData_drop|].
    split; [rewrite recentData_drop, length_drop; lia|].
    split; [reflexivity|].
    cbn [highLeafCount insightFigures]. unfold truthyValues.
    etransitivity; [apply length_filter|].
    etransitivity; [apply length_filter|].
    now rewrite length_map.
Qed.

(** X18: a metric that has no usable value in the recent window (every
    reading has it absent, zero or not a number) gets NaN both as its
    average and as its trend in the figures of the insights handler; for
    the leaf wetness, which has no trend, the average is NaN and the count
    of high readings is 0. *)
Theorem insightFigures_without_values (l : list reading) :
  (Forall (fun r => truthyMetric (temperatureValue r) = false) (recentData l)
   -> tempAvg (insightFigures l) = NaN /\ tempTrend (insightFigures l) = NaN)
  /\ (Forall (fun r => truthyMetric (soilMoisture1 r) = false) (recentData l)
      -> soil1Avg (insightFigures l) = NaN
         /\ soil1Trend (insightFigures l) = NaN)
  /\ (Forall (fun r => truthyMetric (soilMoisture2 r) = false) (recentData l)
      -> soil2Avg (insightFigures l) = NaN
         /\ soil2Trend (insightFigures l) = NaN)
  /\ (Forall (fun r => truthyMetric (leafWetness r) = false) (recentData l)
      -> leafAvg (insightFigures l) = NaN
         /\ highLeafCount (insightFigures l) = 0%nat).
Proof.
  assert (H : forall (m : reading -> metric) (w : list reading),
            Forall (fun r => truthyMetric (m r) = false) w ->
            truthyValues m w = []).
  { intros m w Hw. unfold truthyValues.
    induction Hw as [|r w Hr _ IH]; [reflexivity|].
    cbn [map]. rewrite filter_cons_False; [exact IH|].
    rewrite Hr. discriminate. }
  cbn [insightFigures tempAvg tempTrend soil1Avg soil1Trend soil2Avg
       soil2Trend leafAvg highLeafCount].
  split; [|split; [|split]]; intros Hw; rewrite (H _ _ Hw);
    split; reflexivity.
Qed.

Lemma insightFigures_without_values_witness :
  let r :=
    mkReading 0 JNull (Some (ofZ 0)) None MNull MNull MNull
      JUndefined JUndefined JUndefined in
  Forall (fun r => truthyMetric (temperatureValue r) = false)
    (recentData (replicate 12 r))
  /\ tempAvg (insightFigures (replicate 12 r)) = NaN.
Proof.
  intros r.
  assert (H : Forall (fun r => truthyMetric (temperatureValue r) = false)
                (recentData (replicate 12 r))).
  { rewrite recentData_drop. cbn. repeat constructor. }
  split; [exact H|].
  exact (proj1 (proj1 (insightFigures_without_values (replicate 12 r)) H)).
Defined.

(** ** The cloud normaliser of the earlier revision *)

(** X19: in the cloud normaliser of the earlier revision the outdoor
    sensor comes first, but an outdoor temperature that reads as 0 or as
    not a number is replaced by the indoor temperature when the response
    has one; the value is stored as read, without rounding. *)
Theorem V11_indoor_replaces_zero_outdoor (now : Z) (data : jsval)
    (parsed : reading) :
  V11.parseEcowittCloudData now data = Some parsed ->
  truthy (prop data "outdoor") = true ->
  truthy (prop (prop data "outdoor") "temperature") = true ->
  truthy (prop data "indoor") = true ->
  truthy (prop (prop data "indoor") "temperature") = true ->
  let outdoor :=
    parseFloat (prop (prop (prop data "outdoor") "temperature") "value") in
  let indoor :=
    parseFloat (prop (prop (prop data "indoor") "temperature") "value") in
  temperature parsed
  = Some (if truthy (JNum outdoor) then outdoor else indoor).
Proof.
  intros E Ho Hot Hi Hit. cbn zeta.
  rewrite (V11_temperature _ _ _ E). cbn zeta.
  rewrite Ho, Hot, Hi, Hit. cbn [andb V11.unset].
  destruct (truthy (JNum _)); reflexivity.
Qed.

Lemma V11_indoor_replaces_zero_outdoor_witness :
  let value (s : string) : jsval :=
    JObj {[ "temperature" := JObj {[ "value" := JStr s ]} ]} in
  let data : jsval :=
    JObj {[ "outdoor" := value "0"; "indoor" := value "21.5" ]} in
  exists parsed,
    V11.parseEcowittCloudData 0 data = Some parsed
    /\ temperature parsed = Some (Fin (43 # 2)).
Proof.
  intros value data.
  destruct (V11.parseEcowittCloudData 0 data) as [parsed|] eqn:E;
    [|vm_compute in E; discriminate E].
  exists parsed. split; [reflexivity|].
  rewrite (V11_indoor_replaces_zero_outdoor 0 data parsed E
             eq_refl eq_refl eq_refl eq_refl).
  vm_compute. reflexivity.
Defined.


